(** * deployd session layer: a shallow embedding of [lib/session.js]

    The development follows the source file top to bottom: the two
    process-wide indexes, the [SessionStore] (socket index, socket queue,
    eviction sweep, id generation, [createSession], [getSession]) and the
    [Session] object (constructor with its socket wrapper, [set], [save],
    [fetch], [isAnonymous], [remove]) and its broadcast helper
    [emitToUsers]. [emitToAll], which only forwards its arguments to the
    connection registry, is left out.

    Conventions.
    - A JavaScript object used as a dictionary is a [gmap string _] that
      holds its own properties; a property access [o[k]] coerces [k] to a
      string, so [undefined] and [null] index the properties named
      "undefined" and "null". The two module-level indexes are plain
      objects: a read that finds no own property goes on to
      [Object.prototype] ([Js.get]), while [delete] and assignment act on
      own properties only.
    - Assigning under the name [__proto__] replaces the prototype of a
      plain object instead of creating a property. The model stores it
      like any other property, which agrees with JavaScript when that name
      is read back but not when other names are read afterwards or the
      name is deleted: the model is for processes in which no cookie and
      no uid is [__proto__].
    - The socket queue is an [EventEmitter]: emitting 'error' while nothing
      listens for it throws ([socketQueue_emit]). The notifications an
      emitter sends to the listeners of its own events 'newListener' and
      'removeListener' are not followed: the model is for processes in
      which no Session waits under these two names ([queue_plain]).
    - [Session] objects are mutable and compared by identity: they live in
      a heap and are referred to by their address.
    - Node-style callbacks [fn(err, value)] are continuations over the
      world; a function that ends by calling [fn] is written in
      continuation-passing style, exactly where the source calls it.
    - [Date.now()] is read once per synchronous run and passed as [now].
    - [process.nextTick] work runs after the synchronous part of the
      function that scheduled it and before any store callback. *)

From Stdlib Require Import ZArith Lia Ascii String.
From stdpp Require Import base option list strings gmap fin_maps.

(** ** JavaScript values as the code uses them *)

Module Js.

(** A variable that holds a string, [undefined] or [null]. *)
Inductive ident := Undefined | Null | Str (s : string).

(** [o[k]]: the property name a key is coerced to. *)
Definition prop_key (k : ident) : string :=
  match k with
  | Undefined => "undefined"
  | Null => "null"
  | Str s => s
  end.

Definition of_field (o : option string) : ident :=
  match o with Some s => Str s | None => Undefined end.

(** Truthiness of a string-or-undefined, number-or-undefined and
    boolean-or-undefined value. *)
Definition truthy_str (o : option string) : bool :=
  match o with Some s => negb (String.eqb s "") | None => false end.

Definition truthy_ident (k : ident) : bool :=
  match k with Str s => negb (String.eqb s "") | _ => false end.

Definition truthy_num (o : option Z) : bool :=
  match o with Some z => negb (z =? 0)%Z | None => false end.

Definition truthy_bool (o : option bool) : bool :=
  match o with Some b => b | None => false end.

(** [x < n] for a number-or-undefined [x]: [undefined] converts to NaN
    and every comparison with NaN is false. *)
Definition lt (o : option Z) (n : Z) : bool :=
  match o with Some z => (z <? n)%Z | None => false end.

(** [a || b] on number-or-undefined operands. *)
Definition or_num (a : option Z) (b : Z) : Z :=
  match a with
  | Some z => if (z =? 0)%Z then b else z
  | None => b
  end.

(** What a property of one of the two module-level indexes can hold: a
    [Session] object, referred to by its address, or the value
    [Object.prototype] has under [name] (a built-in function, or
    [Object.prototype] itself under [__proto__]). Either is an object, so
    truthy. *)
Inductive value := Ref (r : nat) | Proto (name : string).

(** The property names of [Object.prototype], which every plain object
    [{}] inherits. *)
Definition prototype_names : list string :=
  [ "constructor"; "hasOwnProperty"; "isPrototypeOf"; "propertyIsEnumerable";
    "toLocaleString"; "toString"; "valueOf"; "__proto__";
    "__defineGetter__"; "__defineSetter__"; "__lookupGetter__"; "__lookupSetter__" ].

Definition inherited (k : string) : bool :=
  existsb (String.eqb k) prototype_names.

(** [o[k]] read on a plain object whose own properties are [o]: the own
    property if there is one, else what [Object.prototype] has under
    that name, else [undefined]. *)
Definition get (o : gmap string value) (k : string) : option value :=
  match o !! k with
  | Some v => Some v
  | None => if inherited k then Some (Proto k) else None
  end.

End Js.

(** ** Session records *)

(** An [Error] object handed to a callback; as an object it is truthy. *)
Record error := Error { message : string }.

Definition toString (e : error) : string := "Error: " +:+ message e.

(** The reserved fields of a session record, each possibly absent, and
    the application-defined fields. *)
Record record := {
  id : option string;
  uid : option string;
  createdOn : option Z;
  lastActive : option Z;
  anonymous : option bool;
  fields : gmap string string
}.

Definition with_id (v : option string) (d : record) : record :=
  {| id := v; uid := uid d; createdOn := createdOn d;
     lastActive := lastActive d; anonymous := anonymous d; fields := fields d |}.

Definition with_createdOn (v : option Z) (d : record) : record :=
  {| id := id d; uid := uid d; createdOn := v;
     lastActive := lastActive d; anonymous := anonymous d; fields := fields d |}.

Definition with_lastActive (v : option Z) (d : record) : record :=
  {| id := id d; uid := uid d; createdOn := createdOn d;
     lastActive := v; anonymous := anonymous d; fields := fields d |}.

Definition with_anonymous (v : option bool) (d : record) : record :=
  {| id := id d; uid := uid d; createdOn := createdOn d;
     lastActive := lastActive d; anonymous := v; fields := fields d |}.

(** The literal [{ anonymous: true }]. *)
Definition anonymous_record : record :=
  {| id := None; uid := None; createdOn := None; lastActive := None;
     anonymous := Some true; fields := ∅ |}.

(** [data[key] = object[key]] for a key that [object] may lack. *)
Definition overwrite {A : Type} (new old : option A) : option A :=
  match new with
  | Some v => Some v
  | None => old
  end.

(** [Object.keys(object).forEach(key => data[key] = object[key])]. *)
Definition assign (object data : record) : record :=
  {| id := overwrite (id object) (id data);
     uid := overwrite (uid object) (uid data);
     createdOn := overwrite (createdOn object) (createdOn data);
     lastActive := overwrite (lastActive object) (lastActive data);
     anonymous := overwrite (anonymous object) (anonymous data);
     fields := fields object ∪ fields data |}.

(** ** Store queries *)

(** Modelled from the spec: the query language of the store, whose code
    ([./db]) is not part of the sources. The comparisons on a field:
    [{ $lt: n }] and [{ $exists: b }]. *)
Inductive cond := CLt (n : Z) | CExists (b : bool).

(** Modelled from the spec: the queries the session layer sends to the
    store (field equality on [id], a comparison on [lastActive], and
    [$or]); ./db, which interprets them, is not part of the sources. *)
#[warnings="-register-all"]
Inductive query :=
| QId (i : option string)          (* { id: i } *)
| QLastActive (c : cond)           (* { lastActive: { $lt: n } } and { $exists: b } *)
| QOr (qs : list query).           (* { $or: [...] } *)

(** Modelled from the spec: when a comparison holds of a field that may
    be missing ([$lt] never holds of a missing field); ./db is not part
    of the sources. *)
Definition holds (c : cond) (v : option Z) : bool :=
  match c, v with
  | CLt n, Some t => (t <? n)%Z
  | CLt _, None => false
  | CExists b, Some _ => b
  | CExists b, None => negb b
  end.

(** Modelled from the spec: the records a query selects; ./db is not
    part of the sources. *)
Fixpoint matches (q : query) (d : record) : bool :=
  match q with
  | QId i => bool_decide (id d = i)
  | QLastActive c => holds c (lastActive d)
  | QOr qs => existsb (fun q' => matches q' d) qs
  end.

(** ** Runtime objects *)

Definition socket := nat.
Definition args := list string.

Inductive event :=
| StoreFind (q : query)
| StoreFirst (q : query)
| StoreInsert (d : record)
| StoreRemove (q : query)
| SocketOn (s : socket) (a : args)
| SocketEmit (s : socket) (a : args)
| ConsoleError (msg : string)
| Uncaught (exn : string).

(** A [Session] object: [data], [this.sid], the constructor's local [sid]
    that the socket wrapper closes over, and the wrapper's two queues
    ([None] while the property is still undefined). *)
Record Session := {
  data : record;
  sid : option string;
  wrapper_sid : option string;
  _bindQueue : option (list args);
  _emitQueue : option (list args)
}.

Definition with_data (d : record) (s : Session) : Session :=
  {| data := d; sid := sid s; wrapper_sid := wrapper_sid s;
     _bindQueue := _bindQueue s; _emitQueue := _emitQueue s |}.

Definition with_sid (v : option string) (s : Session) : Session :=
  {| data := data s; sid := v; wrapper_sid := wrapper_sid s;
     _bindQueue := _bindQueue s; _emitQueue := _emitQueue s |}.

Definition with_bindQueue (q : option (list args)) (s : Session) : Session :=
  {| data := data s; sid := sid s; wrapper_sid := wrapper_sid s;
     _bindQueue := q; _emitQueue := _emitQueue s |}.

Definition with_emitQueue (q : option (list args)) (s : Session) : Session :=
  {| data := data s; sid := sid s; wrapper_sid := wrapper_sid s;
     _bindQueue := _bindQueue s; _emitQueue := q |}.

Definition blank_session : Session :=
  {| data := with_anonymous None anonymous_record; sid := None;
     wrapper_sid := None; _bindQueue := None; _emitQueue := None |}.

(** The whole state: the module-level indexes, the heap of [Session]
    objects, the one [SessionStore] with its options, socket index and
    socket queue, the persistent store behind it, the random source and
    what the outside has observed. *)
Record World := {
  sessionIndex : gmap string Js.value;
  userSessionIndex : gmap string Js.value;
  heap : list Session;
  maxAge : Z;
  socketIndex : gmap string socket;
  socketQueue : list (string * nat);
  lastRun : option Z;
  rows : list record;
  faults : list (option error);
  entropy : nat -> Byte.byte;
  cursor : nat;
  trace : list event
}.

Definition set_sessionIndex (f : gmap string Js.value -> gmap string Js.value)
    (w : World) : World :=
  {| sessionIndex := f (sessionIndex w); userSessionIndex := userSessionIndex w;
     heap := heap w; maxAge := maxAge w; socketIndex := socketIndex w;
     socketQueue := socketQueue w; lastRun := lastRun w; rows := rows w;
     faults := faults w; entropy := entropy w; cursor := cursor w; trace := trace w |}.

Definition set_userSessionIndex (f : gmap string Js.value -> gmap string Js.value)
    (w : World) : World :=
  {| sessionIndex := sessionIndex w; userSessionIndex := f (userSessionIndex w);
     heap := heap w; maxAge := maxAge w; socketIndex := socketIndex w;
     socketQueue := socketQueue w; lastRun := lastRun w; rows := rows w;
     faults := faults w; entropy := entropy w; cursor := cursor w; trace := trace w |}.

Definition set_heap (f : list Session -> list Session) (w : World) : World :=
  {| sessionIndex := sessionIndex w; userSessionIndex := userSessionIndex w;
     heap := f (heap w); maxAge := maxAge w; socketIndex := socketIndex w;
     socketQueue := socketQueue w; lastRun := lastRun w; rows := rows w;
     faults := faults w; entropy := entropy w; cursor := cursor w; trace := trace w |}.

Definition set_socketIndex (f : gmap string socket -> gmap string socket) (w : World) : World :=
  {| sessionIndex := sessionIndex w; userSessionIndex := userSessionIndex w;
     heap := heap w; maxAge := maxAge w; socketIndex := f (socketIndex w);
     socketQueue := socketQueue w; lastRun := lastRun w; rows := rows w;
     faults := faults w; entropy := entropy w; cursor := cursor w; trace := trace w |}.

Definition set_socketQueue (f : list (string * nat) -> list (string * nat)) (w : World) : World :=
  {| sessionIndex := sessionIndex w; userSessionIndex := userSessionIndex w;
     heap := heap w; maxAge := maxAge w; socketIndex := socketIndex w;
     socketQueue := f (socketQueue w); lastRun := lastRun w; rows := rows w;
     faults := faults w; entropy := entropy w; cursor := cursor w; trace := trace w |}.

Definition set_lastRun (v : option Z) (w : World) : World :=
  {| sessionIndex := sessionIndex w; userSessionIndex := userSessionIndex w;
     heap := heap w; maxAge := maxAge w; socketIndex := socketIndex w;
     socketQueue := socketQueue w; lastRun := v; rows := rows w;
     faults := faults w; entropy := entropy w; cursor := cursor w; trace := trace w |}.

Definition set_rows (f : list record -> list record) (w : World) : World :=
  {| sessionIndex := sessionIndex w; userSessionIndex := userSessionIndex w;
     heap := heap w; maxAge := maxAge w; socketIndex := socketIndex w;
     socketQueue := socketQueue w; lastRun := lastRun w; rows := f (rows w);
     faults := faults w; entropy := entropy w; cursor := cursor w; trace := trace w |}.

Definition set_faults (v : list (option error)) (w : World) : World :=
  {| sessionIndex := sessionIndex w; userSessionIndex := userSessionIndex w;
     heap := heap w; maxAge := maxAge w; socketIndex := socketIndex w;
     socketQueue := socketQueue w; lastRun := lastRun w; rows := rows w;
     faults := v; entropy := entropy w; cursor := cursor w; trace := trace w |}.

Definition set_cursor (v : nat) (w : World) : World :=
  {| sessionIndex := sessionIndex w; userSessionIndex := userSessionIndex w;
     heap := heap w; maxAge := maxAge w; socketIndex := socketIndex w;
     socketQueue := socketQueue w; lastRun := lastRun w; rows := rows w;
     faults := faults w; entropy := entropy w; cursor := v; trace := trace w |}.

Definition log (e : event) (w : World) : World :=
  {| sessionIndex := sessionIndex w; userSessionIndex := userSessionIndex w;
     heap := heap w; maxAge := maxAge w; socketIndex := socketIndex w;
     socketQueue := socketQueue w; lastRun := lastRun w; rows := rows w;
     faults := faults w; entropy := entropy w; cursor := cursor w;
     trace := trace w ++ [e] |}.

(** Dereferencing a [Session] reference. *)
Definition deref (w : World) (r : nat) : Session :=
  default blank_session (heap w !! r).

Definition update (r : nat) (f : Session -> Session) (w : World) : World :=
  set_heap (fun h => <[r := f (deref w r)]> h) w.

(** ** Random identifiers *)

Definition hexDigit (n : N) : Ascii.ascii :=
  match n with
  | 0 => "0" | 1 => "1" | 2 => "2" | 3 => "3" | 4 => "4" | 5 => "5"
  | 6 => "6" | 7 => "7" | 8 => "8" | 9 => "9" | 10 => "a" | 11 => "b"
  | 12 => "c" | 13 => "d" | 14 => "e" | _ => "f"
  end%N%char.

(** [buffer.toString('hex')]. *)
Fixpoint toHex (bs : list Byte.byte) : string :=
  match bs with
  | [] => EmptyString
  | b :: bs' =>
      let n := Byte.to_N b in
      String (hexDigit (n / 16)) (String (hexDigit (n mod 16)) (toHex bs'))
  end.

(** [crypto.randomBytes(n)]: the next [n] bytes of the random source. *)
Definition randomBytes (n : nat) (w : World) : list Byte.byte * World :=
  (map (entropy w) (seq (cursor w) n), set_cursor (cursor w + n) w).

(** [SessionStore.prototype.createUniqueIdentifier]:
    [crypto.randomBytes(64).toString('hex')]. *)
Definition createUniqueIdentifier (w : World) : string * World :=
  let '(bs, w') := randomBytes 64 w in (toHex bs, w').

(** ** The persistent store *)

Module Store.

(** Modelled from the spec: the [Store] base class of [./db], which
    [SessionStore] inherits [find], [first], [insert] and [remove] from,
    is not part of the sources. Following the spec's contract, a lookup
    yields the first record the query selects or nothing, [insert] stores
    the record (assigning an id when the caller gave none) and hands
    either the stored record or an error to its callback, [remove]
    deletes every record the query selects, and each operation may
    instead fail, reporting its error and nothing else through the
    callback. Which operations fail is scripted by
    [faults]: one entry is consumed per operation. A callback runs when
    its operation completes. *)
Definition next_fault (w : World) : option error * World :=
  match faults w with
  | [] => (None, w)
  | f :: fs => (f, set_faults fs w)
  end.

(** Modelled from the spec: the first stored record a query selects
    ([first(query) -> record|null]); ./db is not part of the sources. *)
Definition select (q : query) (rs : list record) : option record :=
  List.find (matches q) rs.

(** Modelled from the spec: what is left once every record a query
    selects is deleted; ./db is not part of the sources. *)
Definition purge (q : query) (rs : list record) : list record :=
  List.filter (fun d => negb (matches q d)) rs.

(** Modelled from the spec: [find] of ./db, which is not part of the
    sources, as [createSession] uses it: looked up by id, it yields one
    record or nothing. *)
Definition find (q : query)
    (fn : option error -> option record -> World -> World) (w : World) : World :=
  let '(f, w1) := next_fault (log (StoreFind q) w) in
  match f with
  | Some e => fn (Some e) None w1
  | None => fn None (select q (rows w1)) w1
  end.

(** Modelled from the spec: [first] of ./db, which is not part of the
    sources. *)
Definition first (q : query)
    (fn : option error -> option record -> World -> World) (w : World) : World :=
  let '(f, w1) := next_fault (log (StoreFirst q) w) in
  match f with
  | Some e => fn (Some e) None w1
  | None => fn None (select q (rows w1)) w1
  end.

(** Modelled from the spec: the id the store assigns when the caller
    gave none, drawn from the store's own [createUniqueIdentifier]; ./db
    is not part of the sources. *)
Definition identify (d : record) (w : World) : record * World :=
  if Js.truthy_str (id d) then (d, w)
  else let '(u, w') := createUniqueIdentifier w in (with_id (Some u) d, w').

(** Modelled from the spec: [insert] of ./db, which is not part of the
    sources. *)
Definition insert (d : record)
    (fn : error + record -> World -> World) (w : World) : World :=
  let '(f, w1) := next_fault (log (StoreInsert d) w) in
  match f with
  | Some e => fn (inl e) w1
  | None =>
      let '(d', w2) := identify d w1 in
      fn (inr d') (set_rows (fun rs => rs ++ [d']) w2)
  end.

(** Modelled from the spec: [remove] of ./db, which is not part of the
    sources. *)
Definition remove (q : query) (fn : option error -> World -> World) (w : World) : World :=
  let '(f, w1) := next_fault (log (StoreRemove q) w) in
  match f with
  | Some e => fn (Some e) w1
  | None => fn None (set_rows (purge q) w1)
  end.

End Store.

(** ** SessionStore *)

(** [30 * 24 * 60 * 60 * 1000], the default of [options.maxAge]. *)
Definition default_maxAge : Z := 30 * 24 * 60 * 60 * 1000.

(** The query of the sweep: [lastActive] below [now - maxAge], or no
    [lastActive] at all. *)
Definition cleanupQuery (now age : Z) : query :=
  QOr [ QLastActive (CLt (now - age)); QLastActive (CExists false) ].

(** [SessionStore.prototype.cleanupInactiveSessions]. *)
Definition cleanupInactiveSessions (now : Z) (w : World) : World :=
  let w1 :=
    Store.remove (cleanupQuery now (maxAge w))
      (fun err w' =>
         match err with
         | Some e => log (ConsoleError ("Error removing old sessions: " +:+ toString e)) w'
         | None => w'
         end) w in
  set_lastRun (Some now) w1.

(** [new SessionStore(namespace, db, sockets, options)] for a process that
    has just loaded the module: empty indexes, no socket yet, and the
    sweep scheduled by the constructor already run. *)
Definition SessionStore (options_maxAge : option Z) (db : list record)
    (script : list (option error)) (rnd : nat -> Byte.byte) (now : Z) : World :=
  cleanupInactiveSessions now
    {| sessionIndex := ∅; userSessionIndex := ∅; heap := [];
       maxAge := Js.or_num options_maxAge default_maxAge;
       socketIndex := ∅; socketQueue := []; lastRun := None;
       rows := db; faults := script; entropy := rnd; cursor := 0; trace := [] |}.

(** The listener a [Session] registers with [socketQueue.once]: drain the
    bind queue, then the emit queue, onto the socket. *)
Definition drain (sock : socket) (w : World) (r : nat) : World :=
  let s := deref w r in
  let w1 := foldl (fun w' a => log (SocketOn sock a) w') w (default [] (_bindQueue s)) in
  foldl (fun w' a => log (SocketEmit sock a) w') w1 (default [] (_emitQueue s)).

(** What [EventEmitter.prototype.emit] throws when the event is 'error'
    and nothing listens for it; the argument is the socket, not an
    [Error], so the emitter throws an error of its own (the wording of its
    message differs between versions of Node). *)
Definition unhandled_error : event := Uncaught "Error: Unhandled 'error' event".

(** Whether the socket queue has a listener for an event. *)
Definition listening (ev : string) (q : list (string * nat)) : bool :=
  existsb (fun l => String.eqb (fst l) ev) q.

(** [socketQueue.emit(sid, socket)]: the [once] listeners of the event are
    removed and run in registration order. An 'error' event that has no
    listener is thrown instead. *)
Definition socketQueue_emit (ev : string) (sock : socket) (w : World) : World :=
  let waiting := List.filter (fun l => String.eqb (fst l) ev) (socketQueue w) in
  if String.eqb ev "error" && negb (listening ev (socketQueue w))
  then log unhandled_error w
  else
    let w1 := set_socketQueue (List.filter (fun l => negb (String.eqb (fst l) ev))) w in
    foldl (drain sock) w1 (map snd waiting).

(** The [sockets.on('connection', ...)] handler; [cookie] is what
    [cookies.get('sid')] finds in the handshake. *)
Definition connection (sock : socket) (cookie : option string) (w : World) : World :=
  match cookie with
  | Some c =>
      if Js.truthy_str (Some c)
      then socketQueue_emit c sock (set_socketIndex <[c := sock]> w)
      else w
  | None => w
  end.

(** [SessionStore.prototype.getSession]: [userSessionIndex[uid]], which
    for a name that [Object.prototype] defines is never [undefined]. *)
Definition getSession (u : string) (w : World) : option Js.value :=
  Js.get (userSessionIndex w) u.

(** ** Session *)

(** [new Session(data, store, sockets, rawSockets)]. *)
Definition new_Session (d : record) (now : Z) (w : World) : nat * World :=
  let d1 := if Js.truthy_num (createdOn d) then d else with_createdOn (Some now) d in
  let d2 := if Js.truthy_num (lastActive d1) then d1 else with_lastActive (Some now) d1 in
  let s := if Js.truthy_str (id d) then id d else None in
  let r := length (heap w) in
  let this := {| data := d2; sid := s; wrapper_sid := s;
                 _bindQueue := None; _emitQueue := None |} in
  (r, set_socketQueue (fun q => q ++ [(Js.prop_key (Js.of_field s), r)])
        (set_heap (fun h => h ++ [this]) w)).

(** [session.socket.on(...)] and [session.socket.emit(...)]. The name
    [sid] the wrapper looks up is the id the Session was constructed
    with, and [createSession] constructs no Session for a name that
    [Object.prototype] defines ([wrappers_plain] below), so the lookup in
    the socket index is one of own properties. *)
Definition socket_on (r : nat) (a : args) (w : World) : World :=
  let this := deref w r in
  match socketIndex w !! Js.prop_key (Js.of_field (wrapper_sid this)) with
  | Some s => log (SocketOn s a) w
  | None => update r (with_bindQueue (Some (default [] (_bindQueue this) ++ [a]))) w
  end.

Definition socket_emit (r : nat) (a : args) (w : World) : World :=
  let this := deref w r in
  match socketIndex w !! Js.prop_key (Js.of_field (wrapper_sid this)) with
  | Some s => log (SocketEmit s a) w
  | None => update r (with_emitQueue (Some (default [] (_emitQueue this) ++ [a]))) w
  end.

(** [Session.prototype.set] on a plain object. *)
Definition set (object : record) (r : nat) (w : World) : World :=
  update r (fun s => with_data (assign object (data s)) s) w.

(** [Session.prototype.isAnonymous]. *)
Definition isAnonymous (r : nat) (w : World) : option bool :=
  anonymous (data (deref w r)).

(** [Session.prototype.remove]: [target] is the explicit [data] argument,
    absent when the method is called with the callback alone. *)
Definition remove (target : option record) (r : nat)
    (fn : option error -> World -> World) (w : World) : World :=
  let d := default (data (deref w r)) target in
  if negb (Js.truthy_str (id d)) then fn None w
  else
    let k := Js.prop_key (Js.of_field (id d)) in
    let w1 := set_sessionIndex (delete k) w in
    let w2 := set_userSessionIndex (delete (Js.prop_key (Js.of_field (uid d)))) w1 in
    let w3 := set_socketIndex (delete k) w2 in
    Store.remove (QId (id d)) fn w3.

(** [Session.prototype.save], from its last callback to its first lines.
    [sid_var] is the function-scoped [var sid], assigned only in the
    anonymous branch and read by the callback of [insert]. *)
Definition save_inserted (r : nat) (sid_var : Js.ident)
    (fn : option error -> option record -> World -> World)
    (out : error + record) (w : World) : World :=
  match out with
  | inr res =>
      let w1 := update r (with_data res) w in
      let w2 := set_sessionIndex <[Js.prop_key sid_var := Js.Ref r]> w1 in
      let w3 :=
        if Js.truthy_str (uid res)
        then set_userSessionIndex <[Js.prop_key (Js.of_field (uid res)) := Js.Ref r]> w2
        else w2 in
      let w4 := update r (with_sid (id res)) w3 in
      fn None (Some res) w4
  | inl e => fn (Some e) None w
  end.

Definition save_removed (r : nat) (d : record) (sid_var : Js.ident)
    (fn : option error -> option record -> World -> World)
    (err : option error) (w : World) : World :=
  match err with
  | Some e => fn (Some e) None w
  | None => Store.insert d (save_inserted r sid_var fn) w
  end.

Definition save_prepare (r : nat) (w : World) : record * Js.ident * World :=
  let d := data (deref w r) in
  if Js.truthy_bool (anonymous d)
  then let '(u, w') := createUniqueIdentifier w in
       (with_id (Some u) (with_anonymous None d), Js.Str u, w')
  else (d, Js.Undefined, w).

Definition save (r : nat)
    (fn : option error -> option record -> World -> World) (w : World) : World :=
  let '(d, sid_var, w1) := save_prepare r w in
  remove (Some d) r (save_removed r d sid_var fn) w1.

(** [Session.prototype.fetch]. [Object.keys] inside [set] throws a
    TypeError on [undefined] and [null], which ends the store callback
    before [fn] is reached. *)
Definition fetch (r : nat)
    (fn : option error -> option record -> World -> World) (w : World) : World :=
  Store.first (QId (id (data (deref w r))))
    (fun err d w1 =>
       match d with
       | Some d' => fn err d (set d' r w1)
       | None => log (Uncaught "TypeError: Cannot convert undefined or null to object") w1
       end) w.

(** ** SessionStore.prototype.createSession *)

(** The last lines of [createSession]: sweep when the last run is more
    than a minute old ([lastRun] is undefined until the first run, and
    [undefined < n] is false). *)
Definition sweepIfDue (now : Z) (w : World) : World :=
  if Js.lt (lastRun w) (now - 60 * 1000) then cleanupInactiveSessions now w else w.

(** The TypeError of [sess.data.anonymous] for a [sess] without [data]. *)
Definition no_data : event :=
  Uncaught "TypeError: Cannot read properties of undefined (reading 'anonymous')".

(** The last statement of the callback below, for a [sess] that is a
    Session: stamp and save when the throttle says so, then call back. *)
Definition createSession_stamp (sess : nat) (now : Z)
    (fn : option error -> option nat -> World -> World) (w : World) : World :=
  let d := data (deref w sess) in
  if negb (Js.truthy_bool (anonymous d))
     && (negb (Js.truthy_num (lastActive d)) || Js.lt (lastActive d) (now - 10 * 1000))
  then
    save sess (fun _ _ w' => fn None (Some sess) w')
      (update sess (fun so => with_data (with_lastActive (Some now) (data so)) so) w)
  else fn None (Some sess) w.

(** The callback given to [this.find({ id: sid }, ...)]; [sid] is the
    variable of the enclosing call, reset to [null] for a stale record.
    [sessionIndex[sid] || new Session(...)] takes whatever the index
    yields, also a value inherited from [Object.prototype]; such a value
    is stored in the indexes like a Session, and since it has no [data],
    reading [sess.data.anonymous] then throws a TypeError before [fn] is
    reached. *)
Definition createSession_found (sid0 : option string) (now : Z)
    (fn : option error -> option nat -> World -> World)
    (err : option error) (s0 : option record) (w : World) : World :=
  match err with
  | Some e => fn (Some e) None w
  | None =>
      let stale :=
        match s0 with
        | None => true
        | Some s => Js.lt (lastActive s) (now - maxAge w)
        end in
      let s := if stale then anonymous_record else default anonymous_record s0 in
      let sid := if stale then Js.Null else Js.of_field sid0 in
      let '(sess, w1) :=
        match Js.get (sessionIndex w) (Js.prop_key sid) with
        | Some v => (v, w)
        | None => let '(r, w') := new_Session s now w in (Js.Ref r, w')
        end in
      let w2 :=
        if Js.truthy_ident sid
        then set_sessionIndex <[Js.prop_key sid := sess]> w1 else w1 in
      let w3 :=
        if Js.truthy_str (uid s)
        then set_userSessionIndex <[Js.prop_key (Js.of_field (uid s)) := sess]> w2
        else w2 in
      match sess with
      | Js.Ref r => createSession_stamp r now fn w3
      | Js.Proto _ => log no_data w3
      end
  end.

(** [createSession(sid, fn)]; [sid0] is absent when the function is called
    with the callback alone. With an id, the sweep that the last lines
    schedule runs between the lookup and its callback. *)
Definition createSession (sid0 : option string) (now : Z)
    (fn : option error -> option nat -> World -> World) (w : World) : World :=
  if Js.truthy_str sid0
  then Store.find (QId sid0)
         (fun err s w1 => createSession_found sid0 now fn err s (sweepIfDue now w1)) w
  else
    let '(sess, w1) := new_Session anonymous_record now w in
    sweepIfDue now (fn None (Some sess) w1).

(** A callback that does nothing with what it is given. *)
Definition ignore {A B : Type} (_ : A) (_ : B) (w : World) : World := w.

(** The same, for a callback of one argument. *)
Definition ignore1 {A : Type} (_ : A) (w : World) : World := w.

(** ** Vocabulary of the statements *)

(** The store acknowledges its next operation. *)
Definition next_ok (w : World) : Prop :=
  head (faults w) = None \/ head (faults w) = Some None.

(** The store acknowledges its next [n] operations. *)
Definition ok_for (n : nat) (w : World) : Prop :=
  Forall (fun f => f = None) (take n (faults w)).

(** The three [delete] statements of [remove]. *)
Definition unindexed (d : record) (w : World) : World :=
  set_socketIndex (delete (Js.prop_key (Js.of_field (id d))))
    (set_userSessionIndex (delete (Js.prop_key (Js.of_field (uid d))))
       (set_sessionIndex (delete (Js.prop_key (Js.of_field (id d)))) w)).

(** The world in which [remove] calls back once the store has
    acknowledged the delete. *)
Definition removed (d : record) (w : World) : World :=
  set_rows (Store.purge (QId (id d)))
    (set_faults (tail (faults w)) (log (StoreRemove (QId (id d))) (unindexed d w))).

(** The world in which the store calls back once it has stored a record
    that came with an id. *)
Definition inserted (d : record) (w : World) : World :=
  set_rows (fun rs => rs ++ [d]) (set_faults (tail (faults w)) (log (StoreInsert d) w)).

(** What the callback of [insert] in [save] does before it calls [fn]. *)
Definition indexed (r : nat) (v : Js.ident) (res : record) (w : World) : World :=
  let w1 := update r (with_data res) w in
  let w2 := set_sessionIndex <[Js.prop_key v := Js.Ref r]> w1 in
  let w3 :=
    if Js.truthy_str (uid res)
    then set_userSessionIndex <[Js.prop_key (Js.of_field (uid res)) := Js.Ref r]> w2
    else w2 in
  update r (with_sid (id res)) w3.

(** A call made through a Session's socket wrapper. *)
Inductive call := On (a : args) | Emit (a : args).

(** Making a call through the wrapper of the Session at [r]. *)
Definition issue (r : nat) (w : World) (c : call) : World :=
  match c with
  | On a => socket_on r a w
  | Emit a => socket_emit r a w
  end.

(** The same call, made on a live socket. *)
Definition delivered (sock : socket) (c : call) : event :=
  match c with
  | On a => SocketOn sock a
  | Emit a => SocketEmit sock a
  end.

(** The [on] calls of a sequence of calls, in order. *)
Fixpoint subscriptions (cs : list call) : list args :=
  match cs with
  | [] => []
  | On a :: cs' => a :: subscriptions cs'
  | Emit _ :: cs' => subscriptions cs'
  end.

(** The [emit] calls of a sequence of calls, in order. *)
Fixpoint emissions (cs : list call) : list args :=
  match cs with
  | [] => []
  | On _ :: cs' => emissions cs'
  | Emit a :: cs' => a :: emissions cs'
  end.

(** Several observations at once. *)
Definition logs (es : list event) (w : World) : World :=
  {| sessionIndex := sessionIndex w; userSessionIndex := userSessionIndex w;
     heap := heap w; maxAge := maxAge w; socketIndex := socketIndex w;
     socketQueue := socketQueue w; lastRun := lastRun w; rows := rows w;
     faults := faults w; entropy := entropy w; cursor := cursor w;
     trace := trace w ++ es |}.

(** What draining a Session's queues sends to a socket. *)
Definition replay (sock : socket) (s : Session) : list event :=
  map (SocketOn sock) (default [] (_bindQueue s))
  ++ map (SocketEmit sock) (default [] (_emitQueue s)).

(** What draining the Sessions at [rs], one after the other, sends. *)
Definition replays (sock : socket) (w : World) (rs : list nat) : list event :=
  concat (map (fun r => replay sock (deref w r)) rs).

(** The Sessions whose listener is registered for an event, in
    registration order. *)
Definition waiting_for (ev : string) (q : list (string * nat)) : list nat :=
  map snd (List.filter (fun l => String.eqb (fst l) ev) q).

(** What emitting the event [k] on a queue with listeners [q] throws:
    the 'error' event when nothing listens for it, and nothing else. *)
Definition unhandled (k : string) (q : list (string * nat)) : list event :=
  if String.eqb k "error" && negb (listening k q) then [unhandled_error] else [].

(** No Session waits under one of the two names an emitter uses for its
    own notifications. *)
Definition queue_plain (w : World) : Prop :=
  listening "newListener" (socketQueue w) = false
  /\ listening "removeListener" (socketQueue w) = false.

(** The property of the socket index a Session's wrapper reads, which is
    also the event its listener waits for. *)
Definition wrapper_key (s : Session) : string :=
  Js.prop_key (Js.of_field (wrapper_sid s)).

(** What [createSession] turns into an anonymous session: no record, or
    a record whose [lastActive] is a number below [now - maxAge]. *)
Definition stale (now age : Z) (s0 : option record) : Prop :=
  s0 = None \/ exists s t, s0 = Some s /\ lastActive s = Some t /\ (t < now - age)%Z.

(** The property of the session index that the callback of the lookup
    reads: the id the call was made with, or "null" when the lookup found
    no record or a stale one. *)
Definition found_key (sid0 : option string) (now : Z) (s0 : option record) (w : World)
    : string :=
  match s0 with
  | Some s =>
      if Js.lt (lastActive s) (now - maxAge w) then "null"
      else Js.prop_key (Js.of_field sid0)
  | None => "null"
  end.

(** What [sessionIndex[sid]] yields in [createSession] called with the
    id [i]. *)
Definition cached_for (i : string) (now : Z) (w : World) : option Js.value :=
  Js.get (sessionIndex w)
    (found_key (Some i) now (Store.select (QId (Some i)) (rows w)) w).

(** The throttle of [createSession], read off the Session it is about to
    hand out. *)
Definition due_for_stamp (now : Z) (d : record) : bool :=
  negb (Js.truthy_bool (anonymous d))
  && (negb (Js.truthy_num (lastActive d)) || Js.lt (lastActive d) (now - 10 * 1000)).

(** ** Concrete processes used as examples *)

Module Scenario.

(** A fixed random source. *)
Definition rnd (n : nat) : Byte.byte :=
  default Byte.x00 (Byte.of_nat ((7 * n + 3) mod 256)).

(** The time the process starts, in milliseconds. *)
Definition t0 : Z := 1700000000000.

(** The record [{ id: 'abc', uid: 'u1', createdOn: ..., lastActive: la }]. *)
Definition abc (la : option Z) : record :=
  {| id := Some "abc"; uid := Some "u1"; createdOn := Some (t0 - 86400000)%Z;
     lastActive := la; anonymous := None; fields := {[ "theme" := "dark" ]} |}.

(** An error the store may report. *)
Definition ECONNRESET : error := Error "read ECONNRESET".

(** A process whose store holds a record without [lastActive]; the
    sweep at start-up failed, so the record is still there. *)
Definition legacy : World :=
  SessionStore None [abc None] [Some ECONNRESET] rnd t0.

(** A process whose store holds a record that was active 20 seconds
    before start-up. *)
Definition idle20 : World :=
  SessionStore None [abc (Some (t0 - 20000)%Z)] [] rnd t0.

(** A process that has handed out the session of a record active 5
    seconds before; the Session object is at address 0. *)
Definition active : World :=
  createSession (Some "abc") t0 ignore
    (SessionStore None [abc (Some (t0 - 5000)%Z)] [] rnd t0).

(** The same, with a store that fails its third operation (the first
    two are the start-up sweep and the lookup of [createSession]). *)
Definition flaky : World :=
  createSession (Some "abc") t0 ignore
    (SessionStore None [abc (Some (t0 - 5000)%Z)] [None; None; Some ECONNRESET] rnd t0).

(** A process that has handed out one anonymous session (address 0). *)
Definition guest : World :=
  createSession None t0 ignore (SessionStore None [] [] rnd t0).

(** A second record of the same user. *)
Definition xyz : record :=
  {| id := Some "xyz"; uid := Some "u1"; createdOn := Some (t0 - 3600000)%Z;
     lastActive := Some (t0 - 2000)%Z; anonymous := None; fields := ∅ |}.

(** Two sessions of the same user: Session 0 for 'abc', Session 1 for
    'xyz'; the user index points at Session 1. *)
Definition two_sessions : World :=
  createSession (Some "xyz") t0 ignore
    (createSession (Some "abc") t0 ignore
       (SessionStore None [abc (Some (t0 - 5000)%Z); xyz] [] rnd t0)).

(** Session 0 of 'abc' with live socket 7 attached. *)
Definition bound : World := connection 7 (Some "abc") active.

(** Two subscriptions and two emissions, interleaved. *)
Definition calls : list call :=
  [ On ["message"; "onMessage"]; Emit ["hello"; "1"];
    On ["close"; "onClose"]; Emit ["bye"] ].

(** The anonymous session of [guest] after [set({ uid: 'u1' }).save()]:
    Session 0 now has an id and is in both indexes. *)
Definition member : World :=
  save 0 ignore
    (set {| id := None; uid := Some "u1"; createdOn := None; lastActive := None;
            anonymous := None; fields := ∅ |} 0 guest).

(** The id [save] gave it. *)
Definition member_id : string := default "" (sid (deref member 0)).

(** [calls] made on that Session, then a connection carrying its id. *)
Definition attached : World :=
  connection 7 (Some member_id) (foldl (issue 0) member calls).

End Scenario.

(** ** Vocabulary of the further properties *)

(** Whether a character is a lowercase hexadecimal digit. *)
Definition is_hex (c : Ascii.ascii) : bool :=
  existsb (Ascii.eqb c) (list_ascii_of_string "0123456789abcdef").

(** Whether a string consists of lowercase hexadecimal digits. *)
Fixpoint all_hex (s : string) : bool :=
  match s with
  | EmptyString => true
  | String c s' => is_hex c && all_hex s'
  end.

(** ** emitToUsers *)

(** Modelled from the spec: a user record as the user-lookup collaborator
    ([collection.get], not part of the sources) hands it over; the session
    layer reads its [id] only. *)
Record user := { user_id : option string }.

(** Modelled from the spec: what [collection.get(query, ...)] hands to its
    callback: nothing ([null] or [undefined]), a single user record, or a
    list of user records. *)
Inductive users :=
| NoUsers
| OneUser (u : user)
| ManyUsers (us : list user).

(** The body shared by the two branches of [emitToUsers]: emit to the
    Session cached for the user, if there is one. A value inherited from
    [Object.prototype] is truthy but has no [socket]. *)
Definition emitToUser (a : args) (w : World) (u : user) : World :=
  match Js.get (userSessionIndex w) (Js.prop_key (Js.of_field (user_id u))) with
  | Some (Js.Ref r) => socket_emit r a w
  | Some (Js.Proto _) => w
  | None => w
  end.

(** The callback [emitToUsers] gives to [collection.get]; [found] is what
    the collection hands to it, and [event], [data] are the two arguments
    passed on to [emit]. [users.forEach] throws a TypeError when [users] is
    [null] or a single record without id. *)
Definition emitToUsers (found : users) (event data : string) (w : World) : World :=
  match found with
  | OneUser u =>
      if Js.truthy_str (user_id u)
      then emitToUser [event; data] w u
      else log (Uncaught "TypeError: users.forEach is not a function") w
  | ManyUsers us => foldl (emitToUser [event; data]) w us
  | NoUsers => log (Uncaught "TypeError: Cannot read properties of null (reading 'forEach')") w
  end.

(** The socket a user's cached Session is bound to, if the user has a
    cached Session and a socket is indexed under its wrapper's id. *)
Definition live_socket (w : World) (u : user) : option socket :=
  match userSessionIndex w !! Js.prop_key (Js.of_field (user_id u)) with
  | Some (Js.Ref r) => socketIndex w !! wrapper_key (deref w r)
  | _ => None
  end.

(** Whether a user has a cached Session with no socket indexed for it. *)
Definition waiting (w : World) (u : user) : Prop :=
  exists r, userSessionIndex w !! Js.prop_key (Js.of_field (user_id u)) = Some (Js.Ref r)
            /\ socketIndex w !! wrapper_key (deref w r) = None.

(** ** The listeners of the socket queue *)

(** Every registered listener belongs to a Session that exists, and no
    Session has two listeners. *)
Definition listeners_ok (w : World) : Prop :=
  NoDup (map snd (socketQueue w))
  /\ Forall (fun l => snd l < length (heap w)) (socketQueue w).

(** An operation that registers no listener and builds no Session. *)
Definition quiet (w w' : World) : Prop :=
  socketQueue w' = socketQueue w /\ length (heap w') = length (heap w).

(** Every Session's wrapper looks up a name that [Object.prototype] does
    not define. *)
Definition wrappers_ok (w : World) : Prop :=
  Forall (fun s => Js.inherited (wrapper_key s) = false) (heap w).

(** An operation that leaves the name each wrapper looks up as it was. *)
Definition same_wrappers (w w' : World) : Prop :=
  map wrapper_sid (heap w') = map wrapper_sid (heap w).

(** ** More concrete processes *)

Module Cases.

(** [Scenario.active] with a store that fails its next operation. *)
Definition failing : World := set_faults [Some Scenario.ECONNRESET] Scenario.active.

(** [Scenario.active] with a store that acknowledges its next operation
    and fails the one after. *)
Definition failing_second : World :=
  set_faults [None; Some Scenario.ECONNRESET] Scenario.active.

(** [Scenario.idle20] with a store that acknowledges the lookup and
    fails the next operation, the delete of the save that stamps
    [lastActive]. *)
Definition stamp_fails : World :=
  set_faults [None; Some Scenario.ECONNRESET] Scenario.idle20.

(** A process that has handed out the session of a record whose uid is
    a name that [Object.prototype] defines. *)
Definition named : World :=
  createSession (Some "abc") Scenario.t0 ignore
    (SessionStore None
       [ {| id := Some "abc"; uid := Some "toString"; createdOn := Some (Scenario.t0 - 86400000)%Z;
            lastActive := Some (Scenario.t0 - 5000)%Z; anonymous := None; fields := ∅ |} ]
       [] Scenario.rnd Scenario.t0).

(** A process whose store holds a fresh record with the id
    'constructor', a name that [Object.prototype] defines. *)
Definition shadowed : World :=
  SessionStore None
    [ {| id := Some "constructor"; uid := Some "u1";
         createdOn := Some (Scenario.t0 - 86400000)%Z;
         lastActive := Some (Scenario.t0 - 5000)%Z; anonymous := None; fields := ∅ |} ]
    [] Scenario.rnd Scenario.t0.

(** A random source that repeats itself every 64 bytes. *)
Definition repeating (n : nat) : Byte.byte := Scenario.rnd (n mod 64).

(** A process with that random source that has handed out two anonymous
    sessions, Session 0 and Session 1. *)
Definition twins : World :=
  createSession None (Scenario.t0 + 1000) ignore
    (createSession None Scenario.t0 ignore
       (SessionStore None [] [] repeating Scenario.t0)).

(** Session 0 saved, then Session 1 saved as well. *)
Definition one_saved : World := save 0 ignore twins.
Definition both_saved : World := save 1 ignore one_saved.

(** The id the first [save] drew. *)
Definition twin_id : string := default "" (sid (deref one_saved 0)).

(** The patch [{ uid: 'u1' }]. *)
Definition uid_u1 : record :=
  {| id := None; uid := Some "u1"; createdOn := None; lastActive := None;
     anonymous := None; fields := ∅ |}.

(** A process whose store holds a fresh record, a record without
    [lastActive] and a record last active at time 0. *)
Definition mixed : World :=
  set_rows (fun _ => [ Scenario.abc (Some (Scenario.t0 - 5000)%Z); Scenario.abc None;
                       Scenario.abc (Some 0%Z) ]) Scenario.active.

(** The user 'u1' and a user nobody has a session for. *)
Definition u1 : user := {| user_id := Some "u1" |}.
Definition nobody : user := {| user_id := Some "u9" |}.

(** A process that has just started with one fresh record in its store. *)
Definition started : World :=
  SessionStore None [Scenario.abc (Some (Scenario.t0 - 5000)%Z)] [] Scenario.rnd Scenario.t0.

End Cases.

(** * Properties *)

(** ** Reading a plain object *)

Lemma get_own (o : gmap string Js.value) (k : string) (v : Js.value) :
  o !! k = Some v -> Js.get o k = Some v.
Proof. intros H. unfold Js.get. rewrite H. reflexivity. Qed.

Lemma get_plain (o : gmap string Js.value) (k : string) :
  Js.inherited k = false -> Js.get o k = o !! k.
Proof. intros H. unfold Js.get. rewrite H. destruct (o !! k); reflexivity. Qed.

Lemma get_None (o : gmap string Js.value) (k : string) :
  Js.get o k = None <-> o !! k = None /\ Js.inherited k = false.
Proof.
  unfold Js.get. destruct (o !! k) as [v|]; [split; [discriminate|intros [? _]; discriminate]|].
  destruct (Js.inherited k); split; try discriminate; auto. intros [_ ?]; discriminate.
Qed.

Lemma get_insert (o : gmap string Js.value) (k : string) (v : Js.value) :
  Js.get (<[k := v]> o) k = Some v.
Proof. apply get_own, lookup_insert_eq. Qed.

Lemma get_delete (o : gmap string Js.value) (k : string) :
  Js.get (delete k o) k = if Js.inherited k then Some (Js.Proto k) else None.
Proof. unfold Js.get. rewrite lookup_delete_eq. reflexivity. Qed.

(** The property names [Session] ever builds for itself are not
    inherited ones. *)
Lemma inherited_undefined : Js.inherited "undefined" = false.
Proof. reflexivity. Qed.

Lemma inherited_null : Js.inherited "null" = false.
Proof. reflexivity. Qed.

(** ** The store *)

Lemma truthy_str_Some (i : string) : i ≠ "" -> Js.truthy_str (Some i) = true.
Proof.
  intros Hi. unfold Js.truthy_str.
  destruct (String.eqb i "") eqn:E; [|reflexivity].
  apply String.eqb_eq in E. contradiction.
Qed.

Lemma select_purge (q : query) (rs : list record) :
  Store.select q (Store.purge q rs) = None.
Proof.
  unfold Store.select, Store.purge.
  induction rs as [|d rs IH]; simpl; [reflexivity|].
  destruct (matches q d) eqn:E; simpl; [exact IH|].
  rewrite E. exact IH.
Qed.

Lemma next_fault_ok (w : World) :
  next_ok w -> Store.next_fault w = (None, set_faults (tail (faults w)) w).
Proof.
  unfold next_ok, Store.next_fault. destruct w as [? ? ? ? ? ? ? ? fs ? ? ?]; simpl.
  destruct fs as [|[e|] fs]; simpl; intros [H|H]; try discriminate; reflexivity.
Qed.

Lemma ok_for_next (n : nat) (w : World) : ok_for (S n) w -> next_ok w.
Proof.
  unfold ok_for, next_ok. destruct (faults w) as [|f fs]; simpl; [auto|].
  intros H. inversion H; subst. auto.
Qed.

Lemma ok_for_tail (n : nat) (w w' : World) :
  faults w' = tail (faults w) -> ok_for (S n) w -> ok_for n w'.
Proof.
  unfold ok_for. intros ->. destruct (faults w) as [|f fs]; simpl.
  - intros _. destruct n; constructor.
  - intros H. inversion H; subst. assumption.
Qed.



Lemma deref_Some (w : World) (r : nat) (s : Session) :
  heap w !! r = Some s -> deref w r = s.
Proof. intros H. unfold deref. rewrite H. reflexivity. Qed.

Lemma update_fields (r : nat) (f : Session -> Session) (w : World) (s : Session) :
  heap w !! r = Some s ->
  heap (update r f w) = <[r := f s]> (heap w)
  /\ heap (update r f w) !! r = Some (f s)
  /\ sessionIndex (update r f w) = sessionIndex w
  /\ userSessionIndex (update r f w) = userSessionIndex w
  /\ socketIndex (update r f w) = socketIndex w
  /\ rows (update r f w) = rows w
  /\ trace (update r f w) = trace w
  /\ socketQueue (update r f w) = socketQueue w
  /\ faults (update r f w) = faults w.
Proof.
  intros H. unfold update. cbn [heap sessionIndex userSessionIndex socketIndex rows trace
    socketQueue faults set_heap]. rewrite (deref_Some w r s H).
  split_and!; try reflexivity.
  apply list_lookup_insert_eq. eapply lookup_lt_Some; eauto.
Qed.

(** ** cleanupInactiveSessions *)

Lemma cleanupQuery_selects (now age : Z) (d : record) :
  matches (cleanupQuery now age) d = true <->
  (exists t, lastActive d = Some t /\ (t < now - age)%Z) \/ lastActive d = None.
Proof.
  unfold cleanupQuery; simpl. destruct (lastActive d) as [t|]; simpl.
  - rewrite orb_false_r, Z.ltb_lt. split.
    + intros H. left. exists t. auto.
    + intros [(t' & Ht & Hlt)|H]; [congruence|discriminate].
  - split; [intros _; right; reflexivity | reflexivity].
Qed.

(** C7. Every run of the sweep asks the store to delete with a query that
    selects exactly the records whose [lastActive] is below [now - maxAge]
    or missing; when the delete fails the error is written to the console
    and changes nothing else, the sweep hands nothing to any caller, and
    [lastRun] is set to [now] whether the delete failed or not. *)
Theorem cleanupInactiveSessions_best_effort (now : Z) (w : World) :
  let q := cleanupQuery now (maxAge w) in
  let issued := log (StoreRemove q) w in
  (forall d, matches q d = true <->
     (exists t, lastActive d = Some t /\ (t < now - maxAge w)%Z) \/ lastActive d = None)
  /\ lastRun (cleanupInactiveSessions now w) = Some now
  /\ (exists later, trace (cleanupInactiveSessions now w) = trace w ++ StoreRemove q :: later)
  /\ (forall e fs, faults w = Some e :: fs ->
        cleanupInactiveSessions now w =
        set_lastRun (Some now)
          (log (ConsoleError ("Error removing old sessions: " +:+ toString e))
             (set_faults fs issued)))
  /\ (next_ok w ->
        cleanupInactiveSessions now w =
        set_lastRun (Some now)
          (set_rows (Store.purge q) (set_faults (tail (faults w)) issued))).
Proof.
  intros q issued. split; [|split; [|split; [|split]]].
  - intros d. apply cleanupQuery_selects.
  - reflexivity.
  - unfold cleanupInactiveSessions, Store.remove, Store.next_fault. fold q.
    simpl. destruct (faults w) as [|[e|] fs]; simpl; rewrite <- ?app_assoc; simpl; eauto.
  - intros e fs Hf. unfold cleanupInactiveSessions, Store.remove, Store.next_fault.
    fold q. simpl. rewrite Hf. reflexivity.
  - intros Hok. unfold cleanupInactiveSessions, Store.remove. fold q.
    rewrite (next_fault_ok (log (StoreRemove q) w)) by exact Hok. reflexivity.
Qed.

(** ** Session.prototype.remove *)

(** C9. When the data to remove has no id (absent or empty), [remove]
    calls back at once with no error, in the very world it was called in:
    no index entry has changed and the store has not been asked
    anything. *)
Theorem remove_without_id (target : option record) (r : nat)
    (fn : option error -> World -> World) (w : World) :
  Js.truthy_str (id (default (data (deref w r)) target)) = false ->
  remove target r fn w = fn None w.
Proof.
  intros H. unfold remove. rewrite H. reflexivity.
Qed.

(** [remove] on the anonymous session of [Scenario.guest]. *)
Lemma remove_without_id_witness :
  remove None 0 ignore1 Scenario.guest = Scenario.guest.
Proof.
  apply (remove_without_id None 0 ignore1 Scenario.guest). reflexivity.
Defined.

Lemma remove_with_id (d : record) (r : nat) (w : World)
    (fn : option error -> World -> World) :
  Js.truthy_str (id d) = true ->
  remove (Some d) r fn w = Store.remove (QId (id d)) fn (unindexed d w).
Proof. intros Hid. unfold remove. simpl. rewrite Hid. reflexivity. Qed.

Lemma remove_acknowledged (d : record) (r : nat) (w : World)
    (fn : option error -> World -> World) :
  Js.truthy_str (id d) = true -> next_ok w ->
  remove (Some d) r fn w = fn None (removed d w).
Proof.
  intros Hid Hok. unfold remove. simpl. rewrite Hid. simpl.
  unfold Store.remove. rewrite next_fault_ok by exact Hok. reflexivity.
Qed.

Lemma removed_fields (d : record) (w : World) :
  sessionIndex (removed d w) = delete (Js.prop_key (Js.of_field (id d))) (sessionIndex w)
  /\ userSessionIndex (removed d w) =
       delete (Js.prop_key (Js.of_field (uid d))) (userSessionIndex w)
  /\ socketIndex (removed d w) = delete (Js.prop_key (Js.of_field (id d))) (socketIndex w)
  /\ heap (removed d w) = heap w
  /\ rows (removed d w) = Store.purge (QId (id d)) (rows w)
  /\ trace (removed d w) = trace w ++ [StoreRemove (QId (id d))]
  /\ socketQueue (removed d w) = socketQueue w
  /\ faults (removed d w) = tail (faults w).
Proof. unfold removed. auto 10. Qed.

(** C6. When the data to remove has an id, [remove] deletes the id's
    entry of the session index, the entry of the user index under the
    data's uid whatever Session it points to, and the id's entry of the
    socket index, then asks the store to remove the records with that id
    and hands the store's answer to the callback, whatever it is. The
    record is gone from the store when the store acknowledges; when the
    store reports an error, the callback receives it and the stored
    records are as they were. Afterwards the user index has no own entry
    for the uid, so [getSession] finds nothing, unless the uid is a name
    that [Object.prototype] defines: then [getSession] yields the
    inherited value (the user index still having its first prototype). *)
Theorem remove_purges (target : option record) (r : nat) (w : World) (i : string) :
  id (default (data (deref w r)) target) = Some i ->
  i ≠ "" ->
  exists err w',
    (forall fn, remove target r fn w = fn err w')
    /\ sessionIndex w' = delete i (sessionIndex w)
    /\ sessionIndex w' !! i = None
    /\ userSessionIndex w' =
         delete (Js.prop_key (Js.of_field (uid (default (data (deref w r)) target))))
           (userSessionIndex w)
    /\ (forall u, uid (default (data (deref w r)) target) = Some u ->
          userSessionIndex w' !! u = None
          /\ (userSessionIndex w !! "__proto__" = None ->
              (Js.inherited u = false -> getSession u w' = None)
              /\ (Js.inherited u = true -> getSession u w' = Some (Js.Proto u))))
    /\ socketIndex w' !! i = None
    /\ trace w' = trace w ++ [StoreRemove (QId (Some i))]
    /\ (err = None <-> next_ok w)
    /\ (err = None ->
          rows w' = Store.purge (QId (Some i)) (rows w)
          /\ Store.select (QId (Some i)) (rows w') = None)
    /\ (forall e, err = Some e ->
          head (faults w) = Some (Some e) /\ rows w' = rows w).
Proof.
  intros Hid Hi. unfold remove. rewrite Hid, (truthy_str_Some i Hi). simpl.
  unfold Store.remove, Store.next_fault, next_ok, getSession. simpl.
  destruct (faults w) as [|[e|] fs] eqn:Hf; simpl;
    [ exists None | exists (Some e) | exists None ];
    (eexists; split; [intros fn; reflexivity|]); simpl;
    (split_and!;
     [ reflexivity | apply lookup_delete_eq | reflexivity
     | intros u ->; simpl; rewrite get_delete;
         (split; [apply lookup_delete_eq | intros _; split; intros ->; reflexivity])
     | apply lookup_delete_eq | reflexivity
     | | | ]).
  - tauto.
  - auto using select_purge.
  - discriminate.
  - split; [discriminate | intros [H|H]; discriminate].
  - discriminate.
  - intros e' E. injection E as <-. auto.
  - tauto.
  - auto using select_purge.
  - discriminate.
Qed.

(** Removing Session 0 of [Scenario.two_sessions] purges the user-index
    entry of 'u1', which points at Session 1. *)
Lemma remove_purges_witness :
  userSessionIndex Scenario.two_sessions !! "u1" = Some (Js.Ref 1)
  /\ exists err w',
       (forall fn, remove None 0 fn Scenario.two_sessions = fn err w')
       /\ sessionIndex w' !! "abc" = None
       /\ getSession "u1" w' = None
       /\ socketIndex w' !! "abc" = None
       /\ (err = None -> Store.select (QId (Some "abc")) (rows w') = None).
Proof.
  split; [vm_compute; reflexivity|].
  destruct (remove_purges None 0 Scenario.two_sessions "abc")
    as (err & w' & H1 & _ & H2 & _ & H3 & H4 & _ & _ & H5 & _).
  - vm_compute. reflexivity.
  - discriminate.
  - exists err, w'. split; [exact H1|]. split; [exact H2|].
    split; [apply (H3 "u1"); vm_compute; reflexivity|]. split; [exact H4|].
    intros E. apply H5. exact E.
Defined.

(** C6 as stated, at a store that fails the delete: [remove] on Session 0
    of [Cases.failing] hands the store's error to its callback and the
    record with id 'abc' is still found by a lookup afterwards. And at a
    uid that [Object.prototype] defines: after [remove] on Session 0 of
    [Cases.named], whose uid is 'toString', [getSession('toString')]
    is not empty. *)
Lemma remove_keeps_record_when_store_fails :
  (exists w',
     (forall fn, remove None 0 fn Cases.failing = fn (Some Scenario.ECONNRESET) w')
     /\ sessionIndex w' !! "abc" = None
     /\ Store.select (QId (Some "abc")) (rows w')
        = Some (Scenario.abc (Some (Scenario.t0 - 5000)%Z)))
  /\ uid (data (deref Cases.named 0)) = Some "toString"
  /\ getSession "toString" Cases.named = Some (Js.Ref 0)
  /\ exists w',
       (forall fn, remove None 0 fn Cases.named = fn None w')
       /\ userSessionIndex w' !! "toString" = None
       /\ getSession "toString" w' = Some (Js.Proto "toString").
Proof.
  split; [|split; [|split]].
  - eexists. split; [intros fn; vm_compute; reflexivity|]. vm_compute. auto.
  - vm_compute. reflexivity.
  - vm_compute. reflexivity.
  - eexists. split; [intros fn; vm_compute; reflexivity|]. vm_compute. auto.
Qed.

(** ** Session.prototype.save *)

Lemma insert_acknowledged (d : record) (w : World) (fn : error + record -> World -> World) :
  Js.truthy_str (id d) = true -> next_ok w ->
  Store.insert d fn w = fn (inr d) (inserted d w).
Proof.
  intros Hid Hok. unfold Store.insert. rewrite next_fault_ok by exact Hok.
  unfold Store.identify. rewrite Hid. reflexivity.
Qed.

Lemma save_acknowledged (r : nat) (w : World) (d : record) (v : Js.ident) (w1 : World)
    (fn : option error -> option record -> World -> World) :
  save_prepare r w = (d, v, w1) ->
  Js.truthy_str (id d) = true ->
  ok_for 2 w1 ->
  save r fn w = fn None (Some d) (indexed r v d (inserted d (removed d w1))).
Proof.
  intros Hp Hid Hok. unfold save. rewrite Hp.
  rewrite remove_acknowledged; [|exact Hid|exact (ok_for_next 1 _ Hok)].
  unfold save_removed. rewrite insert_acknowledged; [reflexivity|exact Hid|].
  apply (ok_for_next 0). eapply ok_for_tail; [|exact Hok]. reflexivity.
Qed.

Lemma inserted_fields (d : record) (w : World) :
  sessionIndex (inserted d w) = sessionIndex w
  /\ userSessionIndex (inserted d w) = userSessionIndex w
  /\ socketIndex (inserted d w) = socketIndex w
  /\ heap (inserted d w) = heap w
  /\ rows (inserted d w) = rows w ++ [d]
  /\ trace (inserted d w) = trace w ++ [StoreInsert d]
  /\ socketQueue (inserted d w) = socketQueue w
  /\ faults (inserted d w) = tail (faults w).
Proof. unfold inserted. auto 10. Qed.

Lemma indexed_fields (r : nat) (v : Js.ident) (res : record) (w : World) (s : Session) :
  heap w !! r = Some s ->
  heap (indexed r v res w) = <[r := with_sid (id res) (with_data res s)]> (heap w)
  /\ sessionIndex (indexed r v res w) = <[Js.prop_key v := Js.Ref r]> (sessionIndex w)
  /\ userSessionIndex (indexed r v res w) =
       (if Js.truthy_str (uid res)
        then <[Js.prop_key (Js.of_field (uid res)) := Js.Ref r]> (userSessionIndex w)
        else userSessionIndex w)
  /\ socketIndex (indexed r v res w) = socketIndex w
  /\ rows (indexed r v res w) = rows w
  /\ trace (indexed r v res w) = trace w
  /\ socketQueue (indexed r v res w) = socketQueue w
  /\ faults (indexed r v res w) = faults w.
Proof.
  intros H. unfold indexed.
  destruct (update_fields r (with_data res) w s H)
    as (U1 & U2 & U3 & U4 & U5 & U6 & U7 & U8 & U9).
  set (w1 := update r (with_data res) w) in *.
  set (w2 := set_sessionIndex <[Js.prop_key v := Js.Ref r]> w1).
  set (w3 := if Js.truthy_str (uid res)
             then set_userSessionIndex <[Js.prop_key (Js.of_field (uid res)) := Js.Ref r]> w2
             else w2).
  assert (H3 : heap w3 = heap w1 /\ sessionIndex w3 = <[Js.prop_key v := Js.Ref r]> (sessionIndex w1)
               /\ userSessionIndex w3 =
                    (if Js.truthy_str (uid res)
                     then <[Js.prop_key (Js.of_field (uid res)) := Js.Ref r]> (userSessionIndex w1)
                     else userSessionIndex w1)
               /\ socketIndex w3 = socketIndex w1 /\ rows w3 = rows w1
               /\ trace w3 = trace w1 /\ socketQueue w3 = socketQueue w1
               /\ faults w3 = faults w1).
  { unfold w3, w2. destruct (Js.truthy_str (uid res)); auto 10. }
  destruct H3 as (V1 & V2 & V3 & V4 & V5 & V6 & V7 & V8).
  assert (H3r : heap w3 !! r = Some (with_data res s)) by (rewrite V1; exact U2).
  destruct (update_fields r (with_sid (id res)) w3 _ H3r)
    as (X1 & X2 & X3 & X4 & X5 & X6 & X7 & X8 & X9).
  rewrite X1, X3, X4, X5, X6, X7, X8, X9, V1, V2, V3, V4, V5, V6, V7, V8,
    U1, U3, U4, U5, U6, U7, U8, U9, list_insert_insert_eq.
  auto 10.
Qed.


Lemma indexed_cursor (r : nat) (v : Js.ident) (res : record) (w : World) :
  cursor (indexed r v res w) = cursor w.
Proof. unfold indexed. destruct (Js.truthy_str (uid res)); reflexivity. Qed.

Lemma toHex_length (bs : list Byte.byte) :
  String.length (toHex bs) = 2 * length bs.
Proof. induction bs as [|b bs IH]; simpl; [reflexivity|]. rewrite IH. lia. Qed.

Lemma hexDigit_is_hex (n : N) : is_hex (hexDigit n) = true.
Proof.
  destruct n as [|p]; [reflexivity|].
  repeat match goal with
         | q : positive |- _ => destruct q; try reflexivity
         end.
Qed.

Lemma toHex_all_hex (bs : list Byte.byte) : all_hex (toHex bs) = true.
Proof.
  induction bs as [|b bs IH]; [reflexivity|].
  cbn [toHex all_hex]. rewrite !hexDigit_is_hex, IH. reflexivity.
Qed.

Lemma purge_none (q : query) (rs : list record) :
  Store.select q rs = None -> Store.purge q rs = rs.
Proof.
  unfold Store.select, Store.purge. induction rs as [|d rs IH]; simpl; [reflexivity|].
  destruct (matches q d); simpl; [discriminate|]. intros H. rewrite IH by exact H.
  reflexivity.
Qed.

Lemma createUniqueIdentifier_length (w : World) :
  String.length (fst (createUniqueIdentifier w)) = 128.
Proof.
  unfold createUniqueIdentifier, randomBytes. cbn -[toHex seq].
  rewrite toHex_length, length_map, length_seq. reflexivity.
Qed.

Lemma createUniqueIdentifier_nonempty (w : World) :
  fst (createUniqueIdentifier w) ≠ "".
Proof.
  intros H. pose proof (createUniqueIdentifier_length w) as L.
  rewrite H in L. discriminate.
Qed.

Lemma save_prepare_frame (r : nat) (w : World) :
  sessionIndex (save_prepare r w).2 = sessionIndex w
  /\ userSessionIndex (save_prepare r w).2 = userSessionIndex w
  /\ socketIndex (save_prepare r w).2 = socketIndex w
  /\ heap (save_prepare r w).2 = heap w
  /\ rows (save_prepare r w).2 = rows w
  /\ trace (save_prepare r w).2 = trace w
  /\ socketQueue (save_prepare r w).2 = socketQueue w
  /\ faults (save_prepare r w).2 = faults w.
Proof.
  unfold save_prepare. destruct (Js.truthy_bool _); cbn; auto 10.
Qed.

(** The world a successful [save] hands to its callback. *)
Lemma save_succeeds (r : nat) (w : World) (s : Session) (d : record) (v : Js.ident)
    (w1 : World) (i : string) :
  heap w !! r = Some s ->
  save_prepare r w = (d, v, w1) ->
  id d = Some i -> i ≠ "" ->
  ok_for 2 w ->
  exists w',
    (forall fn, save r fn w = fn None (Some d) w')
    /\ sessionIndex w' = <[Js.prop_key v := Js.Ref r]> (delete i (sessionIndex w))
    /\ userSessionIndex w' =
         (if Js.truthy_str (uid d)
          then <[Js.prop_key (Js.of_field (uid d)) := Js.Ref r]>
          else fun m => m)
           (delete (Js.prop_key (Js.of_field (uid d))) (userSessionIndex w))
    /\ socketIndex w' = delete i (socketIndex w)
    /\ heap w' = <[r := with_sid (Some i) (with_data d s)]> (heap w)
    /\ rows w' = Store.purge (QId (Some i)) (rows w) ++ [d]
    /\ trace w' = trace w ++ [StoreRemove (QId (Some i)); StoreInsert d]
    /\ socketQueue w' = socketQueue w
    /\ cursor w' = cursor w1.
Proof.
  intros Hr Hp Hid Hi Hok.
  assert (Hc : cursor (indexed r v d (inserted d (removed d w1))) = cursor w1)
    by (rewrite indexed_cursor; reflexivity).
  destruct (save_prepare_frame r w) as (E1 & E2 & E3 & E4 & E5 & E6 & E7 & E8).
  rewrite Hp in E1, E2, E3, E4, E5, E6, E7, E8. cbn [snd] in *.
  assert (Ht : Js.truthy_str (id d) = true) by (rewrite Hid; apply truthy_str_Some, Hi).
  assert (Hok1 : ok_for 2 w1) by (unfold ok_for in *; rewrite E8; exact Hok).
  exists (indexed r v d (inserted d (removed d w1))).
  split; [intros fn; apply (save_acknowledged r w d v w1 fn Hp Ht Hok1)|].
  destruct (removed_fields d w1) as (R1 & R2 & R3 & R4 & R5 & R6 & R7 & R8).
  destruct (inserted_fields d (removed d w1)) as (I1 & I2 & I3 & I4 & I5 & I6 & I7 & I8).
  assert (Hr' : heap (inserted d (removed d w1)) !! r = Some s)
    by (rewrite I4, R4, E4; exact Hr).
  destruct (indexed_fields r v d (inserted d (removed d w1)) s Hr')
    as (X1 & X2 & X3 & X4 & X5 & X6 & X7 & X8).
  rewrite X1, X2, X3, X4, X5, X6, X7, I1, I2, I3, I4, I5, I6, I7,
    R1, R2, R3, R4, R5, R6, R7, E1, E2, E3, E4, E5, E6, E7, Hid.
  cbn [Js.of_field Js.prop_key]. rewrite <- app_assoc.
  destruct (Js.truthy_str (uid d)); auto 10.
Qed.

(** A successful [save] calls back in the world that [save] with a
    callback that does nothing ends in. *)
Lemma saved_as_defined (r : nat) (w : World) (i : string) :
  heap w !! r = Some (deref w r) ->
  id (save_prepare r w).1.1 = Some i -> i ≠ "" ->
  ok_for 2 w ->
  forall fn, save r fn w = fn None (Some (save_prepare r w).1.1) (save r ignore w).
Proof.
  intros Hr Hid Hi Hok.
  destruct (save_succeeds r w (deref w r) (save_prepare r w).1.1 (save_prepare r w).1.2
              (save_prepare r w).2 i Hr) as (w' & Hs & _); try assumption.
  { destruct (save_prepare r w) as [[d v] w1]. reflexivity. }
  intros fn. rewrite (Hs ignore). apply Hs.
Qed.

(** C5. Saving a session whose data is flagged anonymous gives it the
    identifier that [createUniqueIdentifier] makes of the next 64 bytes of
    the random source: 128 hexadecimal characters, drawn without a look at
    the identifiers in use. When the store acknowledges the delete and the
    insert, the callback receives a record that carries this identifier and
    no [anonymous] field, the record is in the store, the Session's data is
    that record, [isAnonymous] is falsy afterwards and the session index
    holds the Session under the identifier. What was stored or cached
    under the identifier before is gone: the records with that id are
    deleted and the index entry is overwritten; only when no stored record
    had the identifier are the other records all kept. *)
Theorem save_anonymous_assigns_id (r : nat) (w : World) (s : Session) :
  heap w !! r = Some s ->
  Js.truthy_bool (anonymous (data s)) = true ->
  ok_for 2 w ->
  exists u res w',
    u = toHex (map (entropy w) (seq (cursor w) 64))
    /\ createUniqueIdentifier w = (u, set_cursor (cursor w + 64) w)
    /\ String.length u = 128
    /\ all_hex u = true
    /\ (forall fn, save r fn w = fn None (Some res) w')
    /\ res = with_id (Some u) (with_anonymous None (data s))
    /\ id res = Some u
    /\ anonymous res = None
    /\ res ∈ rows w'
    /\ data (deref w' r) = res
    /\ sid (deref w' r) = Some u
    /\ Js.truthy_bool (isAnonymous r w') = false
    /\ cursor w' = cursor w + 64
    /\ sessionIndex w' !! u = Some (Js.Ref r)
    /\ rows w' = Store.purge (QId (Some u)) (rows w) ++ [res]
    /\ (Store.select (QId (Some u)) (rows w) = None -> rows w' = rows w ++ [res]).
Proof.
  intros Hr Ha Hok.
  pose (u := fst (createUniqueIdentifier w)).
  pose (res := with_id (Some u) (with_anonymous None (data s))).
  assert (Hp : save_prepare r w = (res, Js.Str u, set_cursor (cursor w + 64) w)).
  { unfold save_prepare, deref. rewrite Hr. simpl. rewrite Ha. reflexivity. }
  destruct (save_succeeds r w s res (Js.Str u) _ u Hr Hp eq_refl
              (createUniqueIdentifier_nonempty w) Hok)
    as (w' & Hsave & Hidx & _ & _ & Hheap & Hrows & _ & _ & Hcur).
  assert (Hd : deref w' r = with_sid (Some u) (with_data res s)).
  { unfold deref. rewrite Hheap, list_lookup_insert_eq; [reflexivity|].
    eapply lookup_lt_Some; eauto. }
  exists u, res, w'.
  split; [reflexivity|]. split; [reflexivity|].
  split; [apply createUniqueIdentifier_length|].
  split; [apply toHex_all_hex|].
  split; [exact Hsave|]. split; [reflexivity|]. split; [reflexivity|].
  split; [reflexivity|].
  split; [rewrite Hrows; apply elem_of_app; right; apply list_elem_of_singleton; reflexivity|].
  unfold isAnonymous. rewrite Hd. split_and!; try reflexivity.
  - exact Hcur.
  - rewrite Hidx. cbn [Js.prop_key]. apply lookup_insert_eq.
  - exact Hrows.
  - intros Hfresh. rewrite Hrows, (purge_none _ _ Hfresh). reflexivity.
Qed.

(** Saving the anonymous session of [Scenario.guest]. *)
Lemma save_anonymous_assigns_id_witness :
  exists u res w',
    u = toHex (map Scenario.rnd (seq 0 64))
    /\ String.length u = 128
    /\ (forall fn, save 0 fn Scenario.guest = fn None (Some res) w')
    /\ id res = Some u
    /\ anonymous res = None
    /\ data (deref w' 0) = res
    /\ Js.truthy_bool (isAnonymous 0 w') = false
    /\ rows w' = [res].
Proof.
  destruct (save_anonymous_assigns_id 0 Scenario.guest (deref Scenario.guest 0))
    as (u & res & w' & H0 & _ & H1 & _ & H2 & _ & H3 & H4 & _ & H5 & _ & H6 & _ & _ & _ & H7).
  - vm_compute. reflexivity.
  - vm_compute. reflexivity.
  - unfold ok_for. vm_compute. constructor.
  - exists u, res, w'. split_and!; try assumption.
    apply H7. reflexivity.
Defined.

(** C5 as stated, at a random source that repeats itself every 64 bytes:
    the two anonymous Sessions of [Cases.twins] are saved one after the
    other, and the second [save] draws the identifier the first one drew.
    Both Sessions then carry the same id, the record of Session 0 is no
    longer in the store, and the session-index entry of that id points at
    Session 1. *)
Lemma save_anonymous_reuses_identifier :
  (forall fn, save 0 fn Cases.twins
              = fn None (Some (data (deref Cases.one_saved 0))) Cases.one_saved)
  /\ id (data (deref Cases.one_saved 0)) = Some Cases.twin_id
  /\ rows Cases.one_saved = [data (deref Cases.one_saved 0)]
  /\ sessionIndex Cases.one_saved !! Cases.twin_id = Some (Js.Ref 0)
  /\ (forall fn, save 1 fn Cases.one_saved
                 = fn None (Some (data (deref Cases.both_saved 1))) Cases.both_saved)
  /\ id (data (deref Cases.both_saved 1)) = Some Cases.twin_id
  /\ id (data (deref Cases.both_saved 0)) = Some Cases.twin_id
  /\ rows Cases.both_saved = [data (deref Cases.both_saved 1)]
  /\ (data (deref Cases.both_saved 0) ∉ rows Cases.both_saved)
  /\ sessionIndex Cases.both_saved !! Cases.twin_id = Some (Js.Ref 1).
Proof.
  assert (L : String.length Cases.twin_id = 128) by (vm_compute; reflexivity).
  assert (N : Cases.twin_id ≠ "") by (intros H; rewrite H in L; discriminate).
  assert (D0 : (save_prepare 0 Cases.twins).1.1 = data (deref Cases.one_saved 0))
    by (vm_compute; reflexivity).
  assert (D1 : (save_prepare 1 Cases.one_saved).1.1 = data (deref Cases.both_saved 1))
    by (vm_compute; reflexivity).
  split.
  { intros fn. rewrite <- D0.
    apply (saved_as_defined 0 Cases.twins Cases.twin_id);
      [vm_compute; reflexivity|vm_compute; reflexivity|exact N|].
    unfold ok_for. vm_compute. constructor. }
  split; [vm_compute; reflexivity|].
  split; [vm_compute; reflexivity|].
  split; [vm_compute; reflexivity|].
  split.
  { intros fn. rewrite <- D1.
    apply (saved_as_defined 1 Cases.one_saved Cases.twin_id);
      [vm_compute; reflexivity|vm_compute; reflexivity|exact N|].
    unfold ok_for. vm_compute. constructor. }
  split; [vm_compute; reflexivity|].
  split; [vm_compute; reflexivity|].
  assert (Hrows : rows Cases.both_saved = [data (deref Cases.both_saved 1)])
    by (vm_compute; reflexivity).
  split; [exact Hrows|].
  split; [|vm_compute; reflexivity].
  assert (C0 : createdOn (data (deref Cases.both_saved 0)) = Some Scenario.t0)
    by (vm_compute; reflexivity).
  assert (C1 : createdOn (data (deref Cases.both_saved 1)) = Some (Scenario.t0 + 1000)%Z)
    by (vm_compute; reflexivity).
  rewrite Hrows. intros Hin. apply list_elem_of_singleton in Hin.
  rewrite Hin, C1 in C0. injection C0 as C0. lia.
Qed.

(** A successful [save] of a session that is not flagged anonymous writes
    the session-index entry under the property "undefined": whatever the
    id of the saved record, unless it is that very string, the index has
    no entry for it afterwards. *)
Lemma save_known_session_index (r : nat) (w : World) (s : Session) (i : string) :
  heap w !! r = Some s ->
  Js.truthy_bool (anonymous (data s)) = false ->
  id (data s) = Some i -> i ≠ "" -> i ≠ "undefined" ->
  ok_for 2 w ->
  exists w',
    (forall fn, save r fn w = fn None (Some (data s)) w')
    /\ sessionIndex w' !! i = None
    /\ sessionIndex w' !! "undefined" = Some (Js.Ref r).
Proof.
  intros Hr Ha Hid Hi Hu Hok.
  assert (Hp : save_prepare r w = (data s, Js.Undefined, w)).
  { unfold save_prepare. rewrite (deref_Some w r s Hr), Ha. reflexivity. }
  destruct (save_succeeds r w s (data s) Js.Undefined w i Hr Hp Hid Hi Hok)
    as (w' & Hsave & Hidx & _).
  exists w'. split; [exact Hsave|]. rewrite Hidx. cbn [Js.prop_key]. split.
  - rewrite lookup_insert_ne by (intros E; apply Hu; symmetry; exact E).
    apply lookup_delete_eq.
  - apply lookup_insert_eq.
Qed.

(** C4 at a session that already has an id: Session 0 is the cached
    session of record 'abc'. Its [save] succeeds, the callback receives
    the stored record with id 'abc' and the Session's data is that record,
    but the session index then has no entry under 'abc': the entry that
    [remove] deleted is written back under the property "undefined". *)
Theorem save_of_known_session_loses_index_entry :
  sessionIndex Scenario.active !! "abc" = Some (Js.Ref 0)
  /\ exists res w',
       (forall fn, save 0 fn Scenario.active = fn None (Some res) w')
       /\ id res = Some "abc"
       /\ data (deref w' 0) = res
       /\ userSessionIndex w' !! "u1" = Some (Js.Ref 0)
       /\ sessionIndex w' !! "abc" = None
       /\ sessionIndex w' !! "undefined" = Some (Js.Ref 0).
Proof.
  split; [vm_compute; reflexivity|].
  eexists _, _. split; [intros fn; vm_compute; reflexivity|].
  vm_compute. auto 10.
Qed.




(** ** The socket wrapper and the socket queue *)

Lemma logs_nil (w : World) : logs [] w = w.
Proof. destruct w. unfold logs. simpl. rewrite app_nil_r. reflexivity. Qed.

Lemma logs_logs (es es' : list event) (w : World) :
  logs es' (logs es w) = logs (es ++ es') w.
Proof. unfold logs. simpl. rewrite app_assoc. reflexivity. Qed.

Lemma foldl_log {A : Type} (f : A -> event) (l : list A) (w : World) :
  foldl (fun w' a => log (f a) w') w l = logs (map f l) w.
Proof.
  revert w. induction l as [|a l IH]; intros w; simpl.
  - symmetry. apply logs_nil.
  - rewrite IH. change (log (f a) w) with (logs [f a] w). apply logs_logs.
Qed.

Lemma drain_logs (sock : socket) (w : World) (r : nat) :
  drain sock w r = logs (replay sock (deref w r)) w.
Proof.
  unfold drain, replay. rewrite !foldl_log, logs_logs. reflexivity.
Qed.

Lemma foldl_drain (sock : socket) (rs : list nat) (w : World) :
  foldl (drain sock) w rs = logs (replays sock w rs) w.
Proof.
  revert w. induction rs as [|r rs IH]; intros w; simpl.
  - symmetry. apply logs_nil.
  - rewrite drain_logs, IH, logs_logs. reflexivity.
Qed.

Lemma listening_waiting (k : string) (q : list (string * nat)) :
  listening k q = false <-> waiting_for k q = [].
Proof.
  unfold listening, waiting_for. induction q as [|[k' r] q IH]; simpl; [tauto|].
  destruct (String.eqb k' k); simpl; [split; discriminate|exact IH].
Qed.

(** A connection whose event is handled: any name but 'error', or
    'error' while a Session waits for it. *)
Lemma connection_trace (sock : socket) (k : string) (w : World) :
  k ≠ "" ->
  k ≠ "error" \/ listening k (socketQueue w) = true ->
  connection sock (Some k) w =
  logs (replays sock w (waiting_for k (socketQueue w)))
    (set_socketQueue (List.filter (fun l => negb (String.eqb (fst l) k)))
       (set_socketIndex <[k := sock]> w)).
Proof.
  intros Hk Hh. unfold connection. rewrite (truthy_str_Some k Hk).
  unfold socketQueue_emit. cbn [socketQueue set_socketIndex].
  assert (E : String.eqb k "error" && negb (listening k (socketQueue w)) = false).
  { destruct Hh as [Hne| ->]; [|apply andb_false_r].
    apply String.eqb_neq in Hne. rewrite Hne. reflexivity. }
  rewrite E, foldl_drain. reflexivity.
Qed.

(** A connection carrying the cookie 'error' while no Session waits for
    it: the socket is indexed, then the emitter throws. *)
Lemma connection_unhandled (sock : socket) (w : World) :
  listening "error" (socketQueue w) = false ->
  connection sock (Some "error") w
  = log unhandled_error (set_socketIndex <["error" := sock]> w).
Proof.
  intros Hl. unfold connection, socketQueue_emit. cbn [Js.truthy_str String.eqb Ascii.eqb
    Bool.eqb negb socketQueue set_socketIndex]. rewrite Hl. reflexivity.
Qed.

Lemma waiting_for_served (k : string) (q : list (string * nat)) :
  waiting_for k (List.filter (fun l => negb (String.eqb (fst l) k)) q) = [].
Proof.
  unfold waiting_for. induction q as [|[k' r'] q IH]; simpl; [reflexivity|].
  destruct (String.eqb k' k) eqn:E; simpl; [exact IH|]. rewrite E. exact IH.
Qed.

Lemma filter_not_listening (k : string) (q : list (string * nat)) :
  listening k q = false ->
  List.filter (fun l => negb (String.eqb (fst l) k)) q = q.
Proof.
  unfold listening. induction q as [|[k' r] q IH]; simpl; [reflexivity|].
  destruct (String.eqb k' k); simpl; [discriminate|]. intros H. rewrite IH by exact H.
  reflexivity.
Qed.

Lemma listening_middle (k : string) (r : nat) (q1 q2 : list (string * nat)) :
  listening k (q1 ++ (k, r) :: q2) = true.
Proof.
  unfold listening. rewrite existsb_app. simpl. rewrite String.eqb_refl.
  apply orb_true_iff. right. reflexivity.
Qed.

Lemma unhandled_served (k : string) (q : list (string * nat)) :
  unhandled k (List.filter (fun l => negb (String.eqb (fst l) k)) q)
  = if String.eqb k "error" then [unhandled_error] else [].
Proof.
  unfold unhandled.
  assert (E : listening k (List.filter (fun l => negb (String.eqb (fst l) k)) q) = false)
    by (apply listening_waiting, waiting_for_served).
  rewrite E, andb_true_r. reflexivity.
Qed.

(** What a connection carrying a non-empty cookie changes. *)
Lemma connection_fields (sock : socket) (k : string) (w : World) :
  k ≠ "" ->
  heap (connection sock (Some k) w) = heap w
  /\ sessionIndex (connection sock (Some k) w) = sessionIndex w
  /\ userSessionIndex (connection sock (Some k) w) = userSessionIndex w
  /\ rows (connection sock (Some k) w) = rows w
  /\ socketIndex (connection sock (Some k) w) = <[k := sock]> (socketIndex w)
  /\ socketQueue (connection sock (Some k) w)
     = List.filter (fun l => negb (String.eqb (fst l) k)) (socketQueue w)
  /\ trace (connection sock (Some k) w)
     = trace w ++ replays sock w (waiting_for k (socketQueue w))
       ++ unhandled k (socketQueue w).
Proof.
  intros Hk. unfold unhandled.
  destruct (String.eqb k "error" && negb (listening k (socketQueue w))) eqn:E.
  - apply andb_true_iff in E as [E1 E2]. apply String.eqb_eq in E1. subst k.
    apply negb_true_iff in E2. rewrite (connection_unhandled sock w E2).
    cbn [heap sessionIndex userSessionIndex rows socketIndex socketQueue trace log
         set_socketIndex].
    rewrite (filter_not_listening _ _ E2).
    apply listening_waiting in E2. rewrite E2. split_and!; reflexivity.
  - rewrite (connection_trace sock k w Hk).
    + cbn [heap sessionIndex userSessionIndex rows socketIndex socketQueue trace logs
           set_socketQueue set_socketIndex].
      rewrite app_nil_r. split_and!; reflexivity.
    + apply andb_false_iff in E as [E|E].
      * left. apply String.eqb_neq. exact E.
      * right. apply negb_false_iff. exact E.
Qed.

(** A call made through the wrapper while the socket index holds a socket
    under the wrapper's id goes to that socket and leaves the queues
    alone. *)
Lemma issue_direct (r : nat) (w : World) (sock : socket) (c : call) :
  socketIndex w !! wrapper_key (deref w r) = Some sock ->
  issue r w c = log (delivered sock c) w.
Proof.
  intros H. destruct c; simpl; unfold socket_on, socket_emit;
    fold (wrapper_key (deref w r)); rewrite H; reflexivity.
Qed.

(** Calls made while the socket index has nothing under the wrapper's id
    only extend the Session's two queues, each in call order. *)
Lemma issue_buffered (r : nat) (cs : list call) :
  forall (w : World) (s : Session),
    heap w !! r = Some s ->
    socketIndex w !! wrapper_key s = None ->
    exists s1,
      heap (foldl (issue r) w cs) = <[r := s1]> (heap w)
      /\ wrapper_sid s1 = wrapper_sid s
      /\ default [] (_bindQueue s1) = default [] (_bindQueue s) ++ subscriptions cs
      /\ default [] (_emitQueue s1) = default [] (_emitQueue s) ++ emissions cs
      /\ trace (foldl (issue r) w cs) = trace w
      /\ socketQueue (foldl (issue r) w cs) = socketQueue w
      /\ socketIndex (foldl (issue r) w cs) = socketIndex w.
Proof.
  induction cs as [|c cs IH]; intros w s Hr Hs; simpl.
  - exists s. rewrite !app_nil_r, list_insert_id by exact Hr. auto 10.
  - assert (Hlt : r < length (heap w)) by (eapply lookup_lt_Some; eauto).
    assert (Hd : deref w r = s) by (unfold deref; rewrite Hr; reflexivity).
    destruct c as [a|a]; simpl; unfold socket_on, socket_emit; rewrite Hd;
      fold (wrapper_key s); rewrite Hs;
      match goal with
      | |- context [update r ?f w] =>
          destruct (IH (update r f w) (f s)) as (s1 & E1 & E2 & E3 & E4 & E5 & E6 & E7);
            [ unfold update; simpl; rewrite Hd; apply list_lookup_insert_eq; exact Hlt
            | exact Hs | ]
      end;
      exists s1; unfold update in *; simpl in *; rewrite Hd in *;
      rewrite list_insert_insert_eq in E1; rewrite <- ?app_assoc in *; simpl in *; auto 10.
Qed.

Lemma waiting_for_app (k : string) (q1 q2 : list (string * nat)) :
  waiting_for k (q1 ++ q2) = waiting_for k q1 ++ waiting_for k q2.
Proof. unfold waiting_for. rewrite List.filter_app, map_app. reflexivity. Qed.

Lemma waiting_for_subset (k : string) (q : list (string * nat)) (r : nat) :
  r ∉ map snd q -> r ∉ waiting_for k q.
Proof.
  unfold waiting_for. induction q as [|[k' r'] q IH]; simpl; [auto|].
  intros H. apply not_elem_of_cons in H as [H1 H2].
  destruct (String.eqb k' k); simpl; [apply not_elem_of_cons; split|]; auto.
Qed.

Lemma served_subset (k : string) (q : list (string * nat)) (r : nat) :
  r ∉ map snd q ->
  r ∉ map snd (List.filter (fun l => negb (String.eqb (fst l) k)) q).
Proof.
  induction q as [|[k' r'] q IH]; simpl; [auto|].
  intros H. apply not_elem_of_cons in H as [H1 H2].
  destruct (String.eqb k' k); simpl; [|apply not_elem_of_cons; split]; auto.
Qed.

Lemma replays_elsewhere (sock : socket) (w w' : World) (r : nat) (s1 : Session)
    (rs : list nat) :
  heap w' = <[r := s1]> (heap w) -> r ∉ rs ->
  replays sock w' rs = replays sock w rs.
Proof.
  intros Hh. unfold replays. induction rs as [|r' rs IH]; simpl; [reflexivity|].
  intros H. apply not_elem_of_cons in H as [H1 H2].
  rewrite IH by exact H2. f_equal. unfold deref.
  rewrite Hh, list_lookup_insert_ne by exact H1. reflexivity.
Qed.

(** A newly built Session has empty queues and one listener, registered
    last, and no older listener belongs to it. *)
Lemma new_Session_registers (d : record) (now : Z) (w : World) :
  Forall (fun l => snd l < length (heap w)) (socketQueue w) ->
  exists s,
    heap (new_Session d now w).2 !! (new_Session d now w).1 = Some s
    /\ _bindQueue s = None
    /\ _emitQueue s = None
    /\ socketQueue (new_Session d now w).2 =
         socketQueue w ++ [(wrapper_key s, (new_Session d now w).1)]
    /\ ((new_Session d now w).1 ∉ map snd (socketQueue w))
    /\ socketIndex (new_Session d now w).2 = socketIndex w.
Proof.
  intros Hwf. unfold new_Session. cbn [fst snd heap socketQueue socketIndex
    set_socketQueue set_heap].
  eexists. split; [apply list_lookup_middle; reflexivity|].
  split; [reflexivity|]. split; [reflexivity|]. split; [reflexivity|].
  split; [|reflexivity].
  intros Hin. apply list_elem_of_fmap in Hin as (l & Hl & Hin).
  rewrite Forall_forall in Hwf. specialize (Hwf l Hin). lia.
Qed.

(** The bridge between a Session and its socket, for the property
    [wrapper_key s] that both the wrapper and the listener use. *)
Lemma binding_queue_replay_at_key (r : nat) (w : World) (s : Session) (cs : list call)
    (sock : socket) (q1 q2 : list (string * nat)) :
  heap w !! r = Some s ->
  wrapper_key s ≠ "" ->
  socketIndex w !! wrapper_key s = None ->
  socketQueue w = q1 ++ (wrapper_key s, r) :: q2 ->
  r ∉ map snd q1 ->
  r ∉ map snd q2 ->
  let w1 := foldl (issue r) w cs in
  let w2 := connection sock (Some (wrapper_key s)) w1 in
  trace w1 = trace w
  /\ trace w2 =
       trace w
       ++ replays sock w (waiting_for (wrapper_key s) q1)
       ++ (map (SocketOn sock) (default [] (_bindQueue s) ++ subscriptions cs)
           ++ map (SocketEmit sock) (default [] (_emitQueue s) ++ emissions cs))
       ++ replays sock w (waiting_for (wrapper_key s) q2)
  /\ (r ∉ map snd (socketQueue w2))
  /\ (forall sock',
        trace (connection sock' (Some (wrapper_key s)) w2)
        = trace w2 ++ (if String.eqb (wrapper_key s) "error" then [unhandled_error] else []))
  /\ (forall c, issue r w2 c = log (delivered sock c) w2
                /\ heap (issue r w2 c) = heap w2)
  /\ (forall w0 sock0 c,
        socketIndex w0 !! wrapper_key (deref w0 r) = Some sock0 ->
        issue r w0 c = log (delivered sock0 c) w0).
Proof.
  intros Hr Hk Hs Hq Hn1 Hn2 w1 w2.
  destruct (issue_buffered r cs w s Hr Hs) as (s1 & E1 & E2 & E3 & E4 & E5 & E6 & E7).
  fold w1 in E1, E5, E6, E7.
  assert (Hlt : r < length (heap w)) by (eapply lookup_lt_Some; eauto).
  assert (Hd1 : deref w1 r = s1).
  { unfold deref. rewrite E1, list_lookup_insert_eq by exact Hlt. reflexivity. }
  assert (Hw2 : w2 = logs (replays sock w1 (waiting_for (wrapper_key s) (socketQueue w1)))
            (set_socketQueue
               (List.filter (fun l => negb (String.eqb (fst l) (wrapper_key s))))
               (set_socketIndex <[wrapper_key s := sock]> w1)))
    by (apply connection_trace; [exact Hk|right; rewrite E6, Hq; apply listening_middle]).
  split; [exact E5|]. split; [|split; [|split; [|split]]];
    [ | | | | intros w0 sock0 c H0; apply issue_direct; exact H0 ].
  - rewrite Hw2. simpl. rewrite E5, E6, Hq.
    rewrite waiting_for_app. unfold waiting_for at 2. simpl.
    rewrite String.eqb_refl. simpl.
    fold (waiting_for (wrapper_key s) q2).
    unfold replays at 1. rewrite map_app, concat_app. simpl.
    fold (replays sock w1 (waiting_for (wrapper_key s) q1)).
    fold (replays sock w1 (waiting_for (wrapper_key s) q2)).
    rewrite (replays_elsewhere sock w w1 r s1 _ E1)
      by (apply waiting_for_subset; exact Hn1).
    rewrite (replays_elsewhere sock w w1 r s1 _ E1)
      by (apply waiting_for_subset; exact Hn2).
    rewrite Hd1. unfold replay. rewrite E3, E4. reflexivity.
  - rewrite Hw2. simpl. rewrite E6, Hq, List.filter_app. simpl.
    rewrite String.eqb_refl. simpl. rewrite map_app.
    apply not_elem_of_app. split; apply served_subset; assumption.
  - intros sock'.
    destruct (connection_fields sock' (wrapper_key s) w2 Hk) as (_ & _ & _ & _ & _ & _ & T).
    rewrite T.
    assert (Q : socketQueue w2
                = List.filter (fun l => negb (String.eqb (fst l) (wrapper_key s)))
                    (socketQueue w1)) by (rewrite Hw2; reflexivity).
    rewrite Q, waiting_for_served, unhandled_served. reflexivity.
  - intros c.
    assert (Hdir : socketIndex w2 !! wrapper_key (deref w2 r) = Some sock).
    { rewrite Hw2. unfold deref. simpl. fold (deref w1 r). rewrite Hd1.
      unfold wrapper_key. rewrite E2. apply lookup_insert_eq. }
    rewrite (issue_direct r w2 sock c Hdir). split; reflexivity.
Qed.

(** X22. For a Session constructed with the id [i], not a name that
    [Object.prototype] defines, in a process whose socket index still has
    its first prototype. While its [once] listener is still
    registered (once) under [i] and the socket index holds nothing under
    [i], calls made through the wrapper reach no socket. When a connection
    carrying [i] arrives, the sessions waiting for [i] are drained in
    registration order, and this Session's drain sends its queued
    subscriptions in call order and then its queued emissions in call
    order. The listener is gone afterwards, so a later connection with the
    same id replays nothing (and, the id being 'error', is thrown by the
    emitter), and every call made through the wrapper while a socket is
    indexed under [i] goes straight to that socket and leaves the queues
    alone. *)
Theorem binding_queue_replay (r : nat) (w : World) (s : Session) (i : string)
    (cs : list call) (sock : socket) (q1 q2 : list (string * nat)) :
  heap w !! r = Some s ->
  wrapper_sid s = Some i ->
  i ≠ "" ->
  Js.inherited i = false ->
  queue_plain w ->
  socketIndex w !! "__proto__" = None ->
  socketIndex w !! i = None ->
  socketQueue w = q1 ++ (i, r) :: q2 ->
  r ∉ map snd q1 ->
  r ∉ map snd q2 ->
  let w1 := foldl (issue r) w cs in
  let w2 := connection sock (Some i) w1 in
  trace w1 = trace w
  /\ trace w2 =
       trace w
       ++ replays sock w (waiting_for i q1)
       ++ (map (SocketOn sock) (default [] (_bindQueue s) ++ subscriptions cs)
           ++ map (SocketEmit sock) (default [] (_emitQueue s) ++ emissions cs))
       ++ replays sock w (waiting_for i q2)
  /\ (r ∉ map snd (socketQueue w2))
  /\ (forall sock',
        trace (connection sock' (Some i) w2)
        = trace w2 ++ (if String.eqb i "error" then [unhandled_error] else []))
  /\ (forall c, issue r w2 c = log (delivered sock c) w2
                /\ heap (issue r w2 c) = heap w2)
  /\ (forall w0 s0 sock0 c,
        heap w0 !! r = Some s0 -> wrapper_sid s0 = Some i ->
        socketIndex w0 !! i = Some sock0 ->
        issue r w0 c = log (delivered sock0 c) w0).
Proof.
  intros Hr Hws Hi _ _ _ Hs Hq Hn1 Hn2.
  assert (Hk : wrapper_key s = i) by (unfold wrapper_key; rewrite Hws; reflexivity).
  rewrite <- Hk in Hi, Hs, Hq.
  destruct (binding_queue_replay_at_key r w s cs sock q1 q2 Hr Hi Hs Hq Hn1 Hn2)
    as (H1 & H2 & H3 & H4 & H5 & H6).
  rewrite Hk in *. cbv zeta. split_and!; try assumption.
  intros w0 s0 sock0 c Hr0 Hws0 Hs0. apply H6.
  rewrite (deref_Some w0 r s0 Hr0). unfold wrapper_key. rewrite Hws0. exact Hs0.
Qed.

(** The calls of [Scenario.calls] on Session 0 of [Scenario.active],
    then a connection carrying 'abc'. *)
Lemma binding_queue_replay_witness :
  trace (foldl (issue 0) Scenario.active Scenario.calls) = trace Scenario.active
  /\ trace (connection 7 (Some "abc") (foldl (issue 0) Scenario.active Scenario.calls))
     = trace Scenario.active
       ++ [ SocketOn 7 ["message"; "onMessage"]; SocketOn 7 ["close"; "onClose"];
            SocketEmit 7 ["hello"; "1"]; SocketEmit 7 ["bye"] ]
  /\ (forall sock',
        trace (connection sock' (Some "abc")
                 (connection 7 (Some "abc")
                    (foldl (issue 0) Scenario.active Scenario.calls)))
        = trace (connection 7 (Some "abc")
                   (foldl (issue 0) Scenario.active Scenario.calls)))
  /\ (forall c,
        issue 0 (connection 7 (Some "abc")
                   (foldl (issue 0) Scenario.active Scenario.calls)) c
        = log (delivered 7 c)
            (connection 7 (Some "abc")
               (foldl (issue 0) Scenario.active Scenario.calls))).
Proof.
  destruct (binding_queue_replay 0 Scenario.active (deref Scenario.active 0) "abc"
              Scenario.calls 7 [] [])
    as (H1 & H2 & _ & H4 & H5 & _).
  - vm_compute. reflexivity.
  - vm_compute. reflexivity.
  - discriminate.
  - reflexivity.
  - split; vm_compute; reflexivity.
  - vm_compute. reflexivity.
  - vm_compute. reflexivity.
  - vm_compute. reflexivity.
  - apply not_elem_of_nil.
  - apply not_elem_of_nil.
  - split; [exact H1|]. split; [exact H2|].
    split; [intros sock'; rewrite H4; apply app_nil_r|].
    intros c. apply H5.
Defined.

(** C2 at a Session that was constructed anonymous: Session 0 of
    [Scenario.member] got its id from [save], which also assigned
    [session.sid] and cached the Session in the session index under that
    id, but its wrapper and its listener stay bound to the property
    "undefined". The calls made before the connection carrying its id
    arrives are not replayed when it arrives, and with that connection in
    the socket index a further call is queued, not forwarded. *)
Theorem saved_anonymous_session_is_not_bound :
  sid (deref Scenario.member 0) = Some Scenario.member_id
  /\ id (data (deref Scenario.member 0)) = Some Scenario.member_id
  /\ String.length Scenario.member_id = 128
  /\ sessionIndex Scenario.member !! Scenario.member_id = Some (Js.Ref 0)
  /\ socketIndex Scenario.member !! Scenario.member_id = None
  /\ socketIndex Scenario.attached !! Scenario.member_id = Some 7
  /\ trace Scenario.attached = trace Scenario.member
  /\ trace Scenario.attached
     <> trace Scenario.member
        ++ [ SocketOn 7 ["message"; "onMessage"]; SocketOn 7 ["close"; "onClose"];
             SocketEmit 7 ["hello"; "1"]; SocketEmit 7 ["bye"] ]
  /\ trace (issue 0 Scenario.attached (On ["late"])) = trace Scenario.attached
  /\ _bindQueue (deref (issue 0 Scenario.attached (On ["late"])) 0)
     = Some [ ["message"; "onMessage"]; ["close"; "onClose"]; ["late"] ].
Proof.
  vm_compute. split_and!; try reflexivity.
  intros H. apply (f_equal length) in H. vm_compute in H. discriminate.
Qed.

(** ** Session.prototype.fetch *)

(** [set] keeps what the patch does not mention. *)
Lemma assign_keeps (object old : record) :
  (id object = None -> id (assign object old) = id old)
  /\ (uid object = None -> uid (assign object old) = uid old)
  /\ (createdOn object = None -> createdOn (assign object old) = createdOn old)
  /\ (lastActive object = None -> lastActive (assign object old) = lastActive old)
  /\ (anonymous object = None -> anonymous (assign object old) = anonymous old)
  /\ (forall k, fields object !! k = None ->
        fields (assign object old) !! k = fields old !! k).
Proof.
  unfold assign; simpl. split_and!; try (intros ->; reflexivity).
  intros k Hk. rewrite lookup_union_r by exact Hk. reflexivity.
Qed.

Lemma assign_takes (object old : record) :
  (forall v, id object = Some v -> id (assign object old) = Some v)
  /\ (forall v, uid object = Some v -> uid (assign object old) = Some v)
  /\ (forall v, lastActive object = Some v -> lastActive (assign object old) = Some v)
  /\ (forall k v, fields object !! k = Some v ->
        fields (assign object old) !! k = Some v).
Proof.
  unfold assign; simpl. split_and!; try (intros v ->; reflexivity).
  intros k v Hk. apply lookup_union_Some_l. exact Hk.
Qed.

(** When the store answers with a record, [fetch] merges it into the
    Session's data with [set] and then calls back with it. *)
Lemma fetch_merges (r : nat) (w : World) (s : Session) (d : record) :
  heap w !! r = Some s ->
  next_ok w ->
  Store.select (QId (id (data s))) (rows w) = Some d ->
  exists w',
    (forall fn, fetch r fn w = fn None (Some d) w')
    /\ data (deref w' r) = assign d (data s)
    /\ rows w' = rows w.
Proof.
  intros Hr Hok Hsel. unfold fetch, Store.first.
  assert (Hd : deref w r = s) by (unfold deref; rewrite Hr; reflexivity).
  rewrite Hd. rewrite next_fault_ok by exact Hok. simpl. rewrite Hsel.
  eexists. split; [intros fn; reflexivity|].
  unfold set, update, deref. simpl. rewrite Hr. simpl.
  rewrite list_lookup_insert_eq by (eapply lookup_lt_Some; eauto). auto.
Qed.

(** C8 at a failing store: the store answers the lookup of [fetch] with
    an error and no record; [set] throws on the missing record and the
    caller's callback is never reached, whatever it is. *)
Theorem fetch_drops_store_error :
  head (faults Scenario.flaky) = Some (Some Scenario.ECONNRESET)
  /\ id (data (deref Scenario.flaky 0)) = Some "abc"
  /\ exists w',
       (forall fn, fetch 0 fn Scenario.flaky = w')
       /\ trace w' = trace Scenario.flaky
                     ++ [ StoreFirst (QId (Some "abc"));
                          Uncaught "TypeError: Cannot convert undefined or null to object" ].
Proof.
  split; [vm_compute; reflexivity|]. split; [vm_compute; reflexivity|].
  eexists. split; [intros fn; vm_compute; reflexivity|].
  vm_compute. reflexivity.
Qed.

(** ** SessionStore.prototype.createSession *)

Lemma createSession_with_id (i : string) (now : Z)
    (fn : option error -> option nat -> World -> World) (w : World) :
  i ≠ "" ->
  createSession (Some i) now fn w =
  Store.find (QId (Some i))
    (fun err s w1 => createSession_found (Some i) now fn err s (sweepIfDue now w1)) w.
Proof.
  intros Hi. unfold createSession. rewrite (truthy_str_Some i Hi). reflexivity.
Qed.

(** The sweep touches the store, the console and its own timestamp. *)
Lemma sweepIfDue_frame (now : Z) (w : World) :
  sessionIndex (sweepIfDue now w) = sessionIndex w
  /\ userSessionIndex (sweepIfDue now w) = userSessionIndex w
  /\ heap (sweepIfDue now w) = heap w
  /\ maxAge (sweepIfDue now w) = maxAge w
  /\ socketIndex (sweepIfDue now w) = socketIndex w
  /\ socketQueue (sweepIfDue now w) = socketQueue w.
Proof.
  unfold sweepIfDue. destruct (Js.lt (lastRun w) (now - 60 * 1000)); [|auto 10].
  unfold cleanupInactiveSessions, Store.remove, Store.next_fault. simpl.
  destruct (faults w) as [|[e|] fs]; simpl; auto 10.
Qed.

(** When the lookup finds no record, or one whose [lastActive] is older
    than [maxAge], and nothing is cached under the property "null", the
    callback receives a newly built anonymous Session without id. *)
Lemma createSession_found_stale (sid0 : option string) (now : Z) (s0 : option record) (w : World) :
  stale now (maxAge w) s0 ->
  sessionIndex w !! "null" = None ->
  exists w',
    (forall fn, createSession_found sid0 now fn None s0 w
                = fn None (Some (length (heap w))) w')
    /\ data (deref w' (length (heap w))) =
         with_lastActive (Some now) (with_createdOn (Some now) anonymous_record)
    /\ sessionIndex w' = sessionIndex w
    /\ userSessionIndex w' = userSessionIndex w
    /\ trace w' = trace w.
Proof.
  intros Hst Hnull. unfold createSession_found.
  assert (E : match s0 with
              | Some s => Js.lt (lastActive s) (now - maxAge w)
              | None => true
              end = true).
  { destruct Hst as [->|(s & t & -> & Ht & Hlt)]; [reflexivity|].
    rewrite Ht. simpl. apply Z.ltb_lt. exact Hlt. }
  rewrite E. cbn [Js.prop_key]. rewrite (get_plain _ "null") by reflexivity.
  rewrite Hnull. simpl. unfold createSession_stamp, deref. simpl.
  rewrite lookup_app_r, Nat.sub_diag by reflexivity. simpl.
  eexists. split; [intros fn; reflexivity|]. simpl.
  rewrite lookup_app_r, Nat.sub_diag by reflexivity. simpl. auto.
Qed.

Lemma createSession_stale (i : string) (now : Z) (w : World) :
  i ≠ "" ->
  next_ok w ->
  stale now (maxAge w) (Store.select (QId (Some i)) (rows w)) ->
  sessionIndex w !! "null" = None ->
  exists r w',
    (forall fn, createSession (Some i) now fn w = fn None (Some r) w')
    /\ anonymous (data (deref w' r)) = Some true
    /\ id (data (deref w' r)) = None.
Proof.
  intros Hi Hok Hst Hnull.
  pose (w1 := set_faults (tail (faults w)) (log (StoreFind (QId (Some i))) w)).
  destruct (sweepIfDue_frame now w1) as (F1 & _ & F3 & F4 & _).
  destruct (createSession_found_stale (Some i) now (Store.select (QId (Some i)) (rows w))
              (sweepIfDue now w1)) as (w' & Hk & Hd & _).
  { rewrite F4. exact Hst. }
  { rewrite F1. exact Hnull. }
  exists (length (heap (sweepIfDue now w1))), w'. split.
  - intros fn. rewrite createSession_with_id by exact Hi.
    unfold Store.find. rewrite next_fault_ok by exact Hok. apply Hk.
  - rewrite Hd. auto.
Qed.

(** C1 at a record without [lastActive]: the store holds the record
    [abc] with no [lastActive] field, and [createSession('abc')] hands its
    callback a Session that carries the id 'abc' and no [anonymous]
    flag. *)
Theorem createSession_accepts_record_without_lastActive :
  Store.select (QId (Some "abc")) (rows Scenario.legacy) = Some (Scenario.abc None)
  /\ lastActive (Scenario.abc None) = None
  /\ exists w',
       (forall fn, createSession (Some "abc") (Scenario.t0 + 1000) fn Scenario.legacy
                   = fn None (Some 0) w')
       /\ id (data (deref w' 0)) = Some "abc"
       /\ anonymous (data (deref w' 0)) = None
       /\ sessionIndex w' !! "abc" = Some (Js.Ref 0).
Proof.
  split; [vm_compute; reflexivity|]. split; [reflexivity|].
  eexists. split; [intros fn; vm_compute; reflexivity|].
  vm_compute. auto.
Qed.

Lemma due_for_stamp_recent (now t : Z) (d : record) :
  Js.truthy_bool (anonymous d) = false ->
  lastActive d = Some t -> t ≠ 0%Z -> (now - 10 * 1000 <= t)%Z ->
  due_for_stamp now d = false.
Proof.
  intros Ha Ht H0 Hle. unfold due_for_stamp. rewrite Ha, Ht. simpl.
  apply Z.eqb_neq in H0. rewrite H0. simpl. apply Z.ltb_ge. exact Hle.
Qed.

(** With a record that is not stale and a cached Session that is not
    anonymous and was active within the last 10 seconds, the callback
    receives the cached Session and the store is not asked anything. *)
Lemma createSession_found_throttled (i : string) (now t : Z) (s : record) (w : World)
    (r : nat) (so : Session) :
  i ≠ "" ->
  Js.lt (lastActive s) (now - maxAge w) = false ->
  sessionIndex w !! i = Some (Js.Ref r) ->
  heap w !! r = Some so ->
  Js.truthy_bool (anonymous (data so)) = false ->
  lastActive (data so) = Some t -> t ≠ 0%Z -> (now - 10 * 1000 <= t)%Z ->
  exists w',
    (forall fn, createSession_found (Some i) now fn None (Some s) w = fn None (Some r) w')
    /\ trace w' = trace w
    /\ rows w' = rows w
    /\ heap w' = heap w
    /\ sessionIndex w' !! i = Some (Js.Ref r).
Proof.
  intros Hi Hfresh Hidx Hr Ha Ht H0 Hle. unfold createSession_found.
  rewrite Hfresh. simpl. rewrite (get_own _ _ _ Hidx).
  assert (Hi' : negb (String.eqb i "") = true) by (apply (truthy_str_Some i Hi)).
  rewrite Hi'.
  assert (Hdue : forall w3, heap w3 = heap w -> due_for_stamp now (data (deref w3 r)) = false).
  { intros w3 E. unfold deref. rewrite E, Hr. simpl.
    eapply due_for_stamp_recent; eauto. }
  unfold due_for_stamp in Hdue. unfold createSession_stamp. cbv zeta.
  destruct (Js.truthy_str (uid s)); rewrite Hdue by reflexivity;
    (eexists; split; [intros fn; reflexivity|]); simpl;
    rewrite lookup_insert_eq; auto.
Qed.

(** With a record that is not stale and a cached Session that is not
    anonymous and whose [lastActive] is unset or older than 10 seconds,
    the Session is stamped with [now] and saved, and only then does the
    callback run: when the store acknowledges, the stamped record is in the
    store by then. *)
Lemma createSession_found_stamps (i j : string) (now : Z) (s : record) (w : World)
    (r : nat) (so : Session) :
  i ≠ "" ->
  Js.lt (lastActive s) (now - maxAge w) = false ->
  sessionIndex w !! i = Some (Js.Ref r) ->
  heap w !! r = Some so ->
  Js.truthy_bool (anonymous (data so)) = false ->
  Js.truthy_num (lastActive (data so)) = false
  \/ Js.lt (lastActive (data so)) (now - 10 * 1000) = true ->
  id (data so) = Some j -> j ≠ "" ->
  ok_for 2 w ->
  exists w',
    (forall fn, createSession_found (Some i) now fn None (Some s) w = fn None (Some r) w')
    /\ data (deref w' r) = with_lastActive (Some now) (data so)
    /\ with_lastActive (Some now) (data so) ∈ rows w'
    /\ trace w' = trace w ++ [ StoreRemove (QId (Some j));
                               StoreInsert (with_lastActive (Some now) (data so)) ].
Proof.
  intros Hi Hfresh Hidx Hr Ha Hold Hj Hj' Hok. unfold createSession_found.
  rewrite Hfresh. simpl. rewrite (get_own _ _ _ Hidx).
  assert (Hi' : negb (String.eqb i "") = true) by (apply (truthy_str_Some i Hi)).
  rewrite Hi'. unfold createSession_stamp. cbv zeta.
  assert (Hlt : r < length (heap w)) by (eapply lookup_lt_Some; eauto).
  assert (Hdue : negb (Js.truthy_bool (anonymous (data so)))
                 && (negb (Js.truthy_num (lastActive (data so)))
                     || Js.lt (lastActive (data so)) (now - 10 * 1000)) = true).
  { rewrite Ha. simpl. destruct Hold as [->| ->]; [reflexivity|apply orb_true_r]. }
  set (w2 := set_sessionIndex <[i := Js.Ref r]> w).
  set (w3 := if Js.truthy_str (uid s)
             then set_userSessionIndex <[Js.prop_key (Js.of_field (uid s)) := Js.Ref r]> w2
             else w2).
  assert (E3 : heap w3 = heap w /\ faults w3 = faults w /\ trace w3 = trace w
               /\ rows w3 = rows w).
  { unfold w3, w2. destruct (Js.truthy_str (uid s)); simpl; auto. }
  destruct E3 as (Eh & Ef & Et & Er).
  assert (Hd3 : deref w3 r = so) by (unfold deref; rewrite Eh, Hr; reflexivity).
  simpl. rewrite Hd3, Hdue.
  set (w4 := update r (fun so0 => with_data (with_lastActive (Some now) (data so0)) so0) w3).
  set (so4 := with_data (with_lastActive (Some now) (data so)) so).
  assert (Hr4 : heap w4 !! r = Some so4).
  { unfold w4, update. simpl. rewrite Hd3, Eh. apply list_lookup_insert_eq. exact Hlt. }
  assert (Hp : save_prepare r w4 = (data so4, Js.Undefined, w4)).
  { unfold save_prepare, deref. rewrite Hr4. simpl. rewrite Ha. reflexivity. }
  destruct (save_succeeds r w4 so4 (data so4) Js.Undefined w4 j Hr4 Hp Hj Hj')
    as (w' & Hsave & _ & _ & _ & Hheap & Hrows & Htrace & _).
  { unfold ok_for, w4. simpl. rewrite Ef. exact Hok. }
  exists w'. split; [intros fn; apply Hsave|]. split_and!.
  - unfold deref. rewrite Hheap, list_lookup_insert_eq; [reflexivity|].
    eapply lookup_lt_Some; eauto.
  - rewrite Hrows. apply elem_of_app. right. apply list_elem_of_singleton. reflexivity.
  - rewrite Htrace. unfold w4. simpl. rewrite Et. reflexivity.
Qed.

(** C3 at a record last active 20 seconds ago: the first
    [createSession('abc')] builds Session 0, stamps it and saves it, which
    leaves the session index without an entry under 'abc'; the second
    call, 5 seconds later, writes nothing but finds no cached Session and
    hands its callback a newly built Session 1. *)
Theorem second_createSession_builds_new_session :
  exists w1 w2,
    (forall fn, createSession (Some "abc") Scenario.t0 fn Scenario.idle20
                = fn None (Some 0) w1)
    /\ trace w1 = trace Scenario.idle20
                  ++ [ StoreFind (QId (Some "abc")); StoreRemove (QId (Some "abc"));
                       StoreInsert (Scenario.abc (Some Scenario.t0)) ]
    /\ sessionIndex w1 !! "abc" = None
    /\ sessionIndex w1 !! "undefined" = Some (Js.Ref 0)
    /\ (forall fn, createSession (Some "abc") (Scenario.t0 + 5000) fn w1
                   = fn None (Some 1) w2)
    /\ trace w2 = trace w1 ++ [ StoreFind (QId (Some "abc")) ]
    /\ length (heap w1) = 1
    /\ length (heap w2) = 2
    /\ sessionIndex w2 !! "abc" = Some (Js.Ref 1).
Proof.
  eexists _, _. split; [intros fn; vm_compute; reflexivity|].
  split; [vm_compute; reflexivity|].
  split; [vm_compute; reflexivity|].
  split; [vm_compute; reflexivity|].
  split; [intros fn; vm_compute; reflexivity|].
  vm_compute. auto.
Qed.

(** * Further properties *)

(** ** createUniqueIdentifier *)

(** X1. Every identifier is 128 lowercase hexadecimal characters, and
    drawing it moves the random source on by 64 bytes and changes nothing
    else, so the next identifier is made of the next 64 bytes. *)
Theorem createUniqueIdentifier_format (w : World) :
  String.length (createUniqueIdentifier w).1 = 128
  /\ all_hex (createUniqueIdentifier w).1 = true
  /\ (createUniqueIdentifier w).2 = set_cursor (cursor w + 64) w
  /\ (createUniqueIdentifier (createUniqueIdentifier w).2).1
     = toHex (map (entropy w) (seq (cursor w + 64) 64)).
Proof.
  split; [apply createUniqueIdentifier_length|].
  split; [apply toHex_all_hex|]. split; reflexivity.
Qed.

(** ** save: callbacks and failures *)

Lemma store_remove_quiet (q : query) (w : World) :
  exists err w',
    (forall fn, Store.remove q fn w = fn err w')
    /\ heap w' = heap w
    /\ socketQueue w' = socketQueue w.
Proof.
  unfold Store.remove, Store.next_fault. cbn [faults log].
  destruct (faults w) as [|[e|] fs];
    [ exists None | exists (Some e) | exists None ];
    (eexists; split; [intros fn; reflexivity|]); auto.
Qed.

Lemma remove_calls_back (target : option record) (r : nat) (w : World) :
  exists err w',
    (forall fn, remove target r fn w = fn err w')
    /\ heap w' = heap w
    /\ socketQueue w' = socketQueue w.
Proof.
  unfold remove. destruct (negb (Js.truthy_str (id (default (data (deref w r)) target)))).
  - exists None, w. auto.
  - match goal with
    | |- context [Store.remove ?q _ ?W] =>
        destruct (store_remove_quiet q W) as (err & w' & Hk & Hh & Hq)
    end.
    exists err, w'. split; [exact Hk|]. rewrite Hh, Hq. auto.
Qed.

Lemma indexed_quiet (r : nat) (v : Js.ident) (res : record) (w : World) :
  length (heap (indexed r v res w)) = length (heap w)
  /\ socketQueue (indexed r v res w) = socketQueue w.
Proof.
  unfold indexed, update. destruct (Js.truthy_str (uid res));
    cbn [heap socketQueue set_heap set_sessionIndex set_userSessionIndex];
    rewrite !length_insert; auto.
Qed.

Lemma store_insert_quiet (d : record) (w : World) :
  exists out w',
    (forall fn, Store.insert d fn w = fn out w')
    /\ heap w' = heap w
    /\ socketQueue w' = socketQueue w.
Proof.
  unfold Store.insert, Store.next_fault. cbn [faults log].
  destruct (faults w) as [|[e|] fs].
  - unfold Store.identify, createUniqueIdentifier, randomBytes.
    destruct (Js.truthy_str (id d));
      (eexists (inr _), _; split; [intros fn; reflexivity|]); auto.
  - exists (inl e). eexists. split; [intros fn; reflexivity|]. auto.
  - unfold Store.identify, createUniqueIdentifier, randomBytes.
    destruct (Js.truthy_str (id d));
      (eexists (inr _), _; split; [intros fn; reflexivity|]); auto.
Qed.

Lemma save_removed_calls_back (r : nat) (d : record) (v : Js.ident)
    (err : option error) (w : World) :
  exists e res w',
    (forall fn, save_removed r d v fn err w = fn e res w')
    /\ (e = None /\ is_Some res \/ is_Some e /\ res = None)
    /\ length (heap w') = length (heap w)
    /\ socketQueue w' = socketQueue w.
Proof.
  unfold save_removed. destruct err as [e|].
  - exists (Some e), None, w. split; [reflexivity|]. split; [right; eauto|]. auto.
  - destruct (store_insert_quiet d w) as (out & w1 & Hk & Hh & Hq).
    destruct out as [e|res].
    + exists (Some e), None, w1. split; [intros fn; rewrite Hk; reflexivity|].
      split; [right; eauto|]. rewrite Hh, Hq. auto.
    + exists None, (Some res), (indexed r v res w1).
      split; [intros fn; rewrite Hk; reflexivity|].
      split; [left; eauto|].
      destruct (indexed_quiet r v res w1) as [L Q]. rewrite L, Q, Hh, Hq. auto.
Qed.

Lemma save_prepare_quiet (r : nat) (w : World) :
  heap (save_prepare r w).2 = heap w /\ socketQueue (save_prepare r w).2 = socketQueue w.
Proof. unfold save_prepare. destruct (Js.truthy_bool _); cbn; auto. Qed.

Lemma save_calls_back (r : nat) (w : World) :
  exists e res w',
    (forall fn, save r fn w = fn e res w')
    /\ (e = None /\ is_Some res \/ is_Some e /\ res = None)
    /\ length (heap w') = length (heap w)
    /\ socketQueue w' = socketQueue w.
Proof.
  unfold save. destruct (save_prepare_quiet r w) as [Hh Hq].
  destruct (save_prepare r w) as [[d v] w1]. cbn [snd] in Hh, Hq.
  destruct (remove_calls_back (Some d) r w1) as (err & w2 & Hk & Hh2 & Hq2).
  destruct (save_removed_calls_back r d v err w2) as (e & res & w' & Hk' & Hrel & Hh' & Hq').
  exists e, res, w'. split; [intros fn; rewrite Hk; apply Hk'|].
  split; [exact Hrel|]. rewrite Hh', Hq', Hh2, Hq2, Hh, Hq. auto.
Qed.

(** X3. [save] calls its callback exactly once whatever the store does,
    either with an error and no record or with a record and no error, and
    it neither creates a Session nor registers a listener. *)
Theorem save_calls_back_once (r : nat) (w : World) :
  exists e res w',
    (forall fn, save r fn w = fn e res w')
    /\ (e = None /\ is_Some res \/ is_Some e /\ res = None)
    /\ length (heap w') = length (heap w)
    /\ socketQueue w' = socketQueue w.
Proof.
  destruct (save_calls_back r w) as (e & res & w' & Hk & Hrel & Hh & Hq).
  exists e, res, w'. auto.
Qed.

Lemma unindexed_fields (d : record) (w : World) :
  sessionIndex (unindexed d w) = delete (Js.prop_key (Js.of_field (id d))) (sessionIndex w)
  /\ userSessionIndex (unindexed d w) =
       delete (Js.prop_key (Js.of_field (uid d))) (userSessionIndex w)
  /\ socketIndex (unindexed d w) = delete (Js.prop_key (Js.of_field (id d))) (socketIndex w)
  /\ heap (unindexed d w) = heap w
  /\ rows (unindexed d w) = rows w
  /\ trace (unindexed d w) = trace w
  /\ faults (unindexed d w) = faults w.
Proof. unfold unindexed. auto 10. Qed.

Lemma store_remove_fails (q : query) (w : World) (e : error) (fs : list (option error))
    (fn : option error -> World -> World) :
  faults w = Some e :: fs ->
  Store.remove q fn w = fn (Some e) (set_faults fs (log (StoreRemove q) w)).
Proof.
  intros Hf. unfold Store.remove, Store.next_fault. cbn [faults log]. rewrite Hf.
  reflexivity.
Qed.

Lemma store_insert_fails (d : record) (w : World) (e : error) (fs : list (option error))
    (fn : error + record -> World -> World) :
  faults w = Some e :: fs ->
  Store.insert d fn w = fn (inl e) (set_faults fs (log (StoreInsert d) w)).
Proof.
  intros Hf. unfold Store.insert, Store.next_fault. cbn [faults log]. rewrite Hf.
  reflexivity.
Qed.

Lemma failed_fields (ev : event) (fs : list (option error)) (w : World) :
  sessionIndex (set_faults fs (log ev w)) = sessionIndex w
  /\ userSessionIndex (set_faults fs (log ev w)) = userSessionIndex w
  /\ socketIndex (set_faults fs (log ev w)) = socketIndex w
  /\ heap (set_faults fs (log ev w)) = heap w
  /\ rows (set_faults fs (log ev w)) = rows w
  /\ trace (set_faults fs (log ev w)) = trace w ++ [ev].
Proof. auto 10. Qed.

(** X4. When the store fails the delete that [save] starts with, the
    callback receives that error and nothing is inserted: the stored
    records and the Session's data are as before, but the entries of the
    session index, the user index and the socket index for this data are
    already gone. *)
Theorem save_delete_fails (r : nat) (w : World) (i : string) (e : error)
    (fs : list (option error)) :
  id (save_prepare r w).1.1 = Some i ->
  i ≠ "" ->
  faults w = Some e :: fs ->
  exists w',
    (forall fn, save r fn w = fn (Some e) None w')
    /\ rows w' = rows w
    /\ heap w' = heap w
    /\ trace w' = trace w ++ [StoreRemove (QId (Some i))]
    /\ sessionIndex w' = delete i (sessionIndex w)
    /\ userSessionIndex w' =
         delete (Js.prop_key (Js.of_field (uid (save_prepare r w).1.1)))
           (userSessionIndex w)
    /\ socketIndex w' = delete i (socketIndex w).
Proof.
  intros Hid Hi Hf.
  destruct (save_prepare_frame r w) as (E1 & E2 & E3 & E4 & E5 & E6 & E7 & E8).
  unfold save. destruct (save_prepare r w) as [[d v] w1]. cbn [fst snd] in *.
  assert (Ht : Js.truthy_str (id d) = true) by (rewrite Hid; apply truthy_str_Some, Hi).
  destruct (unindexed_fields d w1) as (U1 & U2 & U3 & U4 & U5 & U6 & U7).
  exists (set_faults fs (log (StoreRemove (QId (id d))) (unindexed d w1))).
  split.
  - intros fn. rewrite (remove_with_id d r w1 _ Ht).
    rewrite (store_remove_fails _ (unindexed d w1) e fs); [reflexivity|].
    rewrite U7, E8. exact Hf.
  - destruct (failed_fields (StoreRemove (QId (id d))) fs (unindexed d w1))
      as (F1 & F2 & F3 & F4 & F5 & F6).
    rewrite F1, F2, F3, F4, F5, F6, U1, U2, U3, U4, U5, U6, E1, E2, E3, E4, E5, E6, Hid.
    auto 10.
Qed.

(** X5. When the store acknowledges the delete and then fails the insert,
    the callback receives the insert's error and the record is lost: no
    stored record has the id any more, while the Session keeps its data
    and is no longer in the session index. *)
Theorem save_insert_fails (r : nat) (w : World) (i : string) (e : error)
    (fs : list (option error)) :
  id (save_prepare r w).1.1 = Some i ->
  i ≠ "" ->
  faults w = None :: Some e :: fs ->
  exists w',
    (forall fn, save r fn w = fn (Some e) None w')
    /\ rows w' = Store.purge (QId (Some i)) (rows w)
    /\ Store.select (QId (Some i)) (rows w') = None
    /\ heap w' = heap w
    /\ sessionIndex w' = delete i (sessionIndex w)
    /\ trace w' = trace w ++ [ StoreRemove (QId (Some i));
                               StoreInsert (save_prepare r w).1.1 ].
Proof.
  intros Hid Hi Hf.
  destruct (save_prepare_frame r w) as (E1 & E2 & E3 & E4 & E5 & E6 & E7 & E8).
  unfold save. destruct (save_prepare r w) as [[d v] w1]. cbn [fst snd] in *.
  assert (Ht : Js.truthy_str (id d) = true) by (rewrite Hid; apply truthy_str_Some, Hi).
  assert (Hok : next_ok w1) by (unfold next_ok; rewrite E8, Hf; right; reflexivity).
  destruct (removed_fields d w1) as (R1 & R2 & R3 & R4 & R5 & R6 & R7 & R8).
  exists (set_faults fs (log (StoreInsert d) (removed d w1))).
  split.
  - intros fn. rewrite (remove_acknowledged d r w1 _ Ht Hok).
    unfold save_removed.
    rewrite (store_insert_fails d (removed d w1) e fs); [reflexivity|].
    rewrite R8, E8, Hf. reflexivity.
  - destruct (failed_fields (StoreInsert d) fs (removed d w1))
      as (F1 & F2 & F3 & F4 & F5 & F6).
    rewrite F1, F4, F5, F6, R1, R4, R5, R6, E1, E4, E5, E6, Hid, <- app_assoc.
    split_and!; try reflexivity. apply select_purge.
Qed.

Lemma filter_purge (q : query) (rs : list record) :
  List.filter (matches q) (Store.purge q rs) = [].
Proof.
  unfold Store.purge. induction rs as [|d rs IH]; [reflexivity|].
  cbn [List.filter]. destruct (matches q d) eqn:E; cbn [negb]; [exact IH|].
  cbn [List.filter]. rewrite E. exact IH.
Qed.

Lemma purge_keeps_others (q : query) (rs : list record) :
  List.filter (fun d => negb (matches q d)) (Store.purge q rs)
  = List.filter (fun d => negb (matches q d)) rs.
Proof.
  unfold Store.purge. induction rs as [|d rs IH]; [reflexivity|].
  cbn [List.filter]. destruct (negb (matches q d)) eqn:E; [|exact IH].
  cbn [List.filter]. rewrite E, IH. reflexivity.
Qed.

Lemma select_app_None (q : query) (l1 l2 : list record) :
  Store.select q l1 = None -> Store.select q (l1 ++ l2) = Store.select q l2.
Proof.
  unfold Store.select. induction l1 as [|d l1 IH]; [reflexivity|].
  cbn [List.find app]. destruct (matches q d); [discriminate|exact IH].
Qed.

Lemma matches_own_id (d : record) : matches (QId (id d)) d = true.
Proof. cbn [matches]. apply bool_decide_eq_true. reflexivity. Qed.

(** X6. A successful [save] is an upsert: afterwards the store holds
    exactly one record with the saved id, the record handed to the
    callback, and the records with other ids are the ones it held before,
    in the same order. *)
Theorem save_upserts (r : nat) (w : World) (s : Session) (i : string) :
  heap w !! r = Some s ->
  id (save_prepare r w).1.1 = Some i ->
  i ≠ "" ->
  ok_for 2 w ->
  exists res w',
    (forall fn, save r fn w = fn None (Some res) w')
    /\ List.filter (matches (QId (Some i))) (rows w') = [res]
    /\ List.filter (fun d => negb (matches (QId (Some i)) d)) (rows w')
       = List.filter (fun d => negb (matches (QId (Some i)) d)) (rows w)
    /\ Store.select (QId (Some i)) (rows w') = Some res.
Proof.
  intros Hr Hid Hi Hok.
  destruct (save_prepare r w) as [[d v] w1] eqn:Hp. cbn [fst] in Hid.
  destruct (save_succeeds r w s d v w1 i Hr Hp Hid Hi Hok)
    as (w' & Hsave & _ & _ & _ & _ & Hrows & _).
  assert (Hm : matches (QId (Some i)) d = true) by (rewrite <- Hid; apply matches_own_id).
  exists d, w'. split; [exact Hsave|]. rewrite Hrows, !List.filter_app.
  rewrite filter_purge, purge_keeps_others. cbn [List.filter]. rewrite Hm. cbn [negb].
  split; [reflexivity|]. split; [apply app_nil_r|].
  rewrite select_app_None by apply select_purge.
  unfold Store.select. cbn [List.find]. rewrite Hm. reflexivity.
Qed.

(** ** save, fetch and set together *)

Lemma overwrite_idem {A : Type} (x : option A) : overwrite x x = x.
Proof. destruct x; reflexivity. Qed.

Lemma overwrite_assoc {A : Type} (x y z : option A) :
  overwrite x (overwrite y z) = overwrite (overwrite x y) z.
Proof. destruct x; reflexivity. Qed.

Lemma assign_idem (d : record) : assign d d = d.
Proof.
  destruct d as [i u c l a f]. unfold assign. cbn [id uid createdOn lastActive anonymous fields].
  rewrite !overwrite_idem. f_equal.
  apply map_eq. intros k. rewrite lookup_union. destruct (f !! k); reflexivity.
Qed.

Lemma assign_assoc (b a d : record) : assign b (assign a d) = assign (assign b a) d.
Proof.
  unfold assign. cbn [id uid createdOn lastActive anonymous fields].
  rewrite !overwrite_assoc. f_equal. apply (assoc_L (∪)).
Qed.

(** X7. [fetch] right after a successful [save] finds the saved record and
    leaves the Session's data as [save] left it: the callback of [fetch]
    receives the record the callback of [save] received. *)
Theorem save_then_fetch (r : nat) (w : World) (s : Session) (i : string) :
  heap w !! r = Some s ->
  id (save_prepare r w).1.1 = Some i ->
  i ≠ "" ->
  ok_for 3 w ->
  exists res w1 w2,
    (forall fn, save r fn w = fn None (Some res) w1)
    /\ data (deref w1 r) = res
    /\ (forall fn, fetch r fn w1 = fn None (Some res) w2)
    /\ data (deref w2 r) = res
    /\ rows w2 = rows w1.
Proof.
  intros Hr Hid Hi Hok.
  destruct (save_prepare_frame r w) as (E1 & E2 & E3 & E4 & E5 & E6 & E7 & E8).
  destruct (save_prepare r w) as [[d v] w1] eqn:Hp. cbn [fst snd] in *.
  assert (Ht : Js.truthy_str (id d) = true) by (rewrite Hid; apply truthy_str_Some, Hi).
  assert (Hok1 : ok_for 3 w1) by (unfold ok_for in *; rewrite E8; exact Hok).
  assert (Hok2 : ok_for 2 w1).
  { unfold ok_for in *. destruct (faults w1) as [|f1 [|f2 [|f3 fs]]]; cbn in *;
      repeat match goal with H : Forall _ (_ :: _) |- _ => inversion H; subst; clear H end;
      repeat constructor; auto. }
  set (w' := indexed r v d (inserted d (removed d w1))).
  destruct (removed_fields d w1) as (R1 & R2 & R3 & R4 & R5 & R6 & R7 & R8).
  destruct (inserted_fields d (removed d w1)) as (I1 & I2 & I3 & I4 & I5 & I6 & I7 & I8).
  assert (Hr' : heap (inserted d (removed d w1)) !! r = Some s)
    by (rewrite I4, R4, E4; exact Hr).
  destruct (indexed_fields r v d (inserted d (removed d w1)) s Hr')
    as (X1 & X2 & X3 & X4 & X5 & X6 & X7 & X8).
  fold w' in X1, X5, X8.
  assert (Hh : heap w' !! r = Some (with_sid (id d) (with_data d s))).
  { rewrite X1. apply list_lookup_insert_eq. rewrite I4, R4, E4.
    eapply lookup_lt_Some; eauto. }
  assert (Hnext : next_ok w').
  { unfold next_ok. rewrite X8, I8, R8.
    unfold ok_for in Hok1. destruct (faults w1) as [|f1 [|f2 [|f3 fs]]]; cbn in *; auto.
    inversion Hok1 as [|? ? _ H2]; subst. inversion H2 as [|? ? _ H3]; subst.
    inversion H3; subst. auto. }
  assert (Hsel : Store.select (QId (id (data (with_sid (id d) (with_data d s))))) (rows w')
                 = Some d).
  { cbn [data with_sid with_data]. rewrite X5, I5, R5.
    rewrite select_app_None by apply select_purge.
    unfold Store.select. cbn [List.find]. rewrite matches_own_id. reflexivity. }
  destruct (fetch_merges r w' _ d Hh Hnext Hsel) as (w2 & Hfetch & Hdata & Hrows).
  exists d, w', w2. split; [intros fn; apply (save_acknowledged r w d v w1 fn Hp Ht Hok2)|].
  split; [rewrite (deref_Some w' r _ Hh); reflexivity|].
  split; [exact Hfetch|]. split; [|exact Hrows].
  rewrite Hdata. cbn [data with_sid with_data]. apply assign_idem.
Qed.

Lemma set_heap_at (a : record) (r : nat) (w : World) (s : Session) :
  heap w !! r = Some s ->
  heap (set a r w) = <[r := with_data (assign a (data s)) s]> (heap w).
Proof.
  intros Hr. unfold set, update. cbn [heap set_heap].
  rewrite (deref_Some w r s Hr). reflexivity.
Qed.

(** X8. Two [set] calls in a row act as one [set] of the merged patch, in
    which the later patch wins; [set] changes the Session's data and
    nothing else, so a uid it writes is not yet known to [getSession]. *)
Theorem set_composes (a b : record) (r : nat) (w : World) :
  set b r (set a r w) = set (assign b a) r w
  /\ sessionIndex (set a r w) = sessionIndex w
  /\ userSessionIndex (set a r w) = userSessionIndex w
  /\ (forall u, getSession u (set a r w) = getSession u w)
  /\ rows (set a r w) = rows w
  /\ trace (set a r w) = trace w
  /\ (forall s, heap w !! r = Some s ->
        heap (set a r w) = <[r := with_data (assign a (data s)) s]> (heap w)).
Proof.
  split; [|split_and!; try reflexivity].
  - unfold set, update. destruct (heap w !! r) as [s|] eqn:Hr.
    + assert (Hlt : r < length (heap w)) by (eapply lookup_lt_Some; eauto).
      unfold deref. cbn [heap set_heap]. rewrite (list_lookup_insert_eq _ _ _ Hlt), Hr.
      cbn [from_option data with_data]. unfold set_heap.
      cbn [heap sessionIndex userSessionIndex maxAge socketIndex socketQueue lastRun rows
           faults entropy cursor trace].
      rewrite list_insert_insert_eq. unfold Datatypes.id. cbn [data with_data].
      rewrite assign_assoc. reflexivity.
    + assert (Hge : length (heap w) <= r) by (apply lookup_ge_None; exact Hr).
      unfold set_heap.
      cbn [heap sessionIndex userSessionIndex maxAge socketIndex socketQueue lastRun rows
           faults entropy cursor trace].
      rewrite !(list_insert_ge (heap w)) by exact Hge. reflexivity.
  - intros s Hr. apply set_heap_at. exact Hr.
Qed.

(** X9. An anonymous Session that is given a uid with [set] and then
    saved successfully ends up in both indexes. The identifier is the one
    [createUniqueIdentifier] makes of the next 64 bytes of the random
    source, which [save] consumes; the session index has the Session under
    that identifier, [getSession(uid)] returns it, and the stored record
    carries that identifier and the uid and no [anonymous] flag. *)
Theorem anonymous_set_uid_save (patch : record) (u : string) (r : nat) (w : World)
    (s : Session) :
  heap w !! r = Some s ->
  Js.truthy_bool (anonymous (data s)) = true ->
  uid patch = Some u ->
  u ≠ "" ->
  anonymous patch = None ->
  ok_for 2 w ->
  exists newid res w',
    newid = toHex (map (entropy w) (seq (cursor w) 64))
    /\ newid = (createUniqueIdentifier (set patch r w)).1
    /\ (forall fn, save r fn (set patch r w) = fn None (Some res) w')
    /\ cursor w' = cursor w + 64
    /\ String.length newid = 128
    /\ id res = Some newid
    /\ uid res = Some u
    /\ anonymous res = None
    /\ res ∈ rows w'
    /\ data (deref w' r) = res
    /\ sessionIndex w' !! newid = Some (Js.Ref r)
    /\ getSession u w' = Some (Js.Ref r).
Proof.
  intros Hr Ha Hu Hu' Hpa Hok.
  pose proof (set_heap_at patch r w s Hr) as Hheap.
  set (s' := with_data (assign patch (data s)) s) in *.
  set (W := set patch r w) in *.
  assert (HrW : heap W !! r = Some s').
  { rewrite Hheap. apply list_lookup_insert_eq. eapply lookup_lt_Some; eauto. }
  assert (Ha' : Js.truthy_bool (anonymous (data s')) = true).
  { unfold s', assign. cbn [data with_data anonymous]. rewrite Hpa. exact Ha. }
  assert (Hu'' : uid (data s') = Some u).
  { unfold s', assign. cbn [data with_data uid]. rewrite Hu. reflexivity. }
  pose (newid := (createUniqueIdentifier W).1).
  pose (res := with_id (Some newid) (with_anonymous None (data s'))).
  assert (Hp : save_prepare r W = (res, Js.Str newid, set_cursor (cursor W + 64) W)).
  { unfold save_prepare. rewrite (deref_Some W r s' HrW), Ha'. reflexivity. }
  assert (HokW : ok_for 2 W) by exact Hok.
  destruct (save_succeeds r W s' res (Js.Str newid) _ newid HrW Hp eq_refl
              (createUniqueIdentifier_nonempty W) HokW)
    as (w' & Hsave & Hidx & Huidx & _ & Hh & Hrows & _ & _ & Hcur).
  assert (Hur : uid res = Some u) by exact Hu''.
  exists newid, res, w'. split; [reflexivity|]. split; [reflexivity|].
  split; [exact Hsave|]. split; [exact Hcur|].
  split; [apply createUniqueIdentifier_length|].
  split; [reflexivity|]. split; [exact Hur|]. split; [reflexivity|].
  split; [rewrite Hrows; apply elem_of_app; right; apply list_elem_of_singleton;
          reflexivity|].
  split.
  { unfold deref. rewrite Hh, list_lookup_insert_eq by (eapply lookup_lt_Some; eauto).
    reflexivity. }
  split.
  { rewrite Hidx. cbn [Js.prop_key]. apply lookup_insert_eq. }
  unfold getSession. rewrite Huidx, Hur, (truthy_str_Some u Hu').
  cbn [Js.of_field Js.prop_key]. apply get_insert.
Qed.

(** X10. The wrapper looks the socket up at every call: after a connection
    carrying the id a Session was constructed with, whatever happened
    before, every call through the wrapper goes to the socket of that
    latest connection. The connection itself replaces the socket-index
    entry and touches neither the Sessions, nor the other indexes, nor the
    store; in particular it does not empty the queues it replays. *)
Theorem reconnect_redirects_wrapper (r : nat) (w : World) (s : Session) (i : string)
    (sock : socket) :
  heap w !! r = Some s ->
  wrapper_sid s = Some i ->
  i ≠ "" ->
  (forall c, issue r (connection sock (Some i) w) c
             = log (delivered sock c) (connection sock (Some i) w))
  /\ socketIndex (connection sock (Some i) w) !! i = Some sock
  /\ heap (connection sock (Some i) w) = heap w
  /\ sessionIndex (connection sock (Some i) w) = sessionIndex w
  /\ userSessionIndex (connection sock (Some i) w) = userSessionIndex w
  /\ rows (connection sock (Some i) w) = rows w.
Proof.
  intros Hr Hws Hi.
  destruct (connection_fields sock i w Hi) as (C1 & C2 & C3 & C4 & C5 & _).
  assert (Hidx : socketIndex (connection sock (Some i) w) !! i = Some sock)
    by (rewrite C5; apply lookup_insert_eq).
  split; [|auto 10].
  intros c. apply issue_direct.
  assert (Hd : deref (connection sock (Some i) w) r = s).
  { apply deref_Some. rewrite C1. exact Hr. }
  rewrite Hd. unfold wrapper_key. rewrite Hws. exact Hidx.
Qed.

(** ** createSession: callbacks, errors and caches *)

Lemma createSession_stamp_calls_back (r : nat) (now : Z) (w : World) :
  exists w', forall fn, createSession_stamp r now fn w = fn None (Some r) w'.
Proof.
  unfold createSession_stamp. cbv zeta.
  match goal with
  | |- context [if ?c then save ?sess _ ?W else _] =>
      destruct c;
        [ destruct (save_calls_back sess W) as (e & res & w' & Hk & _);
          exists w'; intros fn; apply Hk
        | eexists; intros fn; reflexivity ]
  end.
Qed.

Lemma found_key_prop (sid0 : option string) (now : Z) (s0 : option record) (w : World) :
  Js.prop_key
    (if match s0 with
        | Some s => Js.lt (lastActive s) (now - maxAge w)
        | None => true
        end
     then Js.Null else Js.of_field sid0)
  = found_key sid0 now s0 w.
Proof.
  unfold found_key. destruct s0 as [s|]; [|reflexivity].
  destruct (Js.lt (lastActive s) (now - maxAge w)); reflexivity.
Qed.

(** The callback of the lookup, when the store reported no error: it
    calls back once with a Session, unless what the session index yields
    is a value of [Object.prototype]; then it throws. *)
Lemma createSession_found_calls_back (sid0 : option string) (now : Z)
    (s0 : option record) (w : World) :
  match Js.get (sessionIndex w) (found_key sid0 now s0 w) with
  | Some (Js.Proto n) =>
      exists w',
        (forall fn, createSession_found sid0 now fn None s0 w = w')
        /\ trace w' = trace w ++ [no_data]
        /\ heap w' = heap w
        /\ socketQueue w' = socketQueue w
        /\ rows w' = rows w
  | _ =>
      exists r w', forall fn, createSession_found sid0 now fn None s0 w = fn None (Some r) w'
  end.
Proof.
  unfold createSession_found. cbv zeta. rewrite found_key_prop.
  destruct (Js.get (sessionIndex w) (found_key sid0 now s0 w)) as [[r|n]|].
  - match goal with
    | |- context [createSession_stamp r now _ ?W] =>
        destruct (createSession_stamp_calls_back r now W) as (w' & Hk)
    end.
    exists r, w'. exact Hk.
  - eexists. split; [intros fn; reflexivity|].
    destruct (Js.truthy_ident _), (Js.truthy_str _); auto.
  - destruct (new_Session _ now w) as [r w1].
    match goal with
    | |- context [createSession_stamp r now _ ?W] =>
        destruct (createSession_stamp_calls_back r now W) as (w' & Hk)
    end.
    exists r, w'. exact Hk.
Qed.

(** X11. With an id, [createSession] calls its callback exactly once in
    all but one case. It reports an error exactly when the lookup failed,
    and then hands over the store's error and no Session. When the lookup
    succeeded it hands over a Session and no error, also when the save
    that stamps [lastActive] failed; except that when what the session
    index yields for the id is a value inherited from [Object.prototype]
    (the id is 'constructor', say, and its record is in the store), no
    Session is built, reading [sess.data.anonymous] throws and the
    callback is never called. *)
Theorem createSession_calls_back_once (i : string) (now : Z) (w : World) :
  i ≠ "" ->
  queue_plain w ->
  (exists err w',
      head (faults w) = Some (Some err)
      /\ forall fn, createSession (Some i) now fn w = fn (Some err) None w')
  \/ (exists r w',
        next_ok w
        /\ (forall n, cached_for i now w ≠ Some (Js.Proto n))
        /\ forall fn, createSession (Some i) now fn w = fn None (Some r) w')
  \/ (exists n w',
        next_ok w
        /\ cached_for i now w = Some (Js.Proto n)
        /\ (forall fn, createSession (Some i) now fn w = w')
        /\ trace w'
           = trace (sweepIfDue now
                      (set_faults (tail (faults w)) (log (StoreFind (QId (Some i))) w)))
             ++ [no_data]).
Proof.
  intros Hi _. unfold createSession. rewrite (truthy_str_Some i Hi).
  unfold Store.find.
  assert (Hcase : (exists err fs, faults w = Some err :: fs) \/ next_ok w).
  { unfold next_ok. destruct (faults w) as [|[err|] fs]; eauto. }
  destruct Hcase as [(err & fs & Hf)|Hok].
  - left. unfold Store.next_fault. cbn [faults log]. rewrite Hf.
    eexists err, _. split; [reflexivity|]. intros fn. reflexivity.
  - right. rewrite next_fault_ok by exact Hok.
    set (w1 := set_faults (tail (faults w)) (log (StoreFind (QId (Some i))) w)).
    destruct (sweepIfDue_frame now w1) as (F1 & _ & _ & F4 & _).
    pose proof (createSession_found_calls_back (Some i) now
                  (Store.select (QId (Some i)) (rows w1)) (sweepIfDue now w1)) as H.
    assert (Hc : Js.get (sessionIndex (sweepIfDue now w1))
                   (found_key (Some i) now (Store.select (QId (Some i)) (rows w1))
                      (sweepIfDue now w1))
                 = cached_for i now w).
    { unfold cached_for, found_key. rewrite F1, F4. reflexivity. }
    rewrite Hc in H.
    destruct (cached_for i now w) as [[r0|n]|] eqn:Hcf.
    + left. destruct H as (r & w' & Hk). exists r, w'.
      split; [exact Hok|]. split; [discriminate|exact Hk].
    + right. destruct H as (w' & Hk & Ht & _). exists n, w'.
      split; [exact Hok|]. split; [reflexivity|]. split; [exact Hk|exact Ht].
    + left. destruct H as (r & w' & Hk). exists r, w'.
      split; [exact Hok|]. split; [discriminate|exact Hk].
Qed.

(** [createSession('abc')] when the save that stamps [lastActive] fails:
    the callback still receives the Session. *)
Lemma createSession_calls_back_once_witness :
  exists r w',
    forall fn, createSession (Some "abc") Scenario.t0 fn Cases.stamp_fails
               = fn None (Some r) w'.
Proof.
  destruct (createSession_calls_back_once "abc" Scenario.t0 Cases.stamp_fails)
    as [(err & w' & Hf & _)|[(r & w' & _ & _ & Hk)|(n & w' & _ & Hc & _)]].
  - discriminate.
  - split; reflexivity.
  - vm_compute in Hf. discriminate.
  - exists r, w'. exact Hk.
  - vm_compute in Hc. discriminate.
Defined.

(** [createSession('constructor')] when the store holds a fresh record
    with that id: the session index yields [Object], which is stored in
    both indexes as if it were the Session, and the callback is never
    reached. *)
Lemma createSession_throws_at_inherited_name :
  cached_for "constructor" Scenario.t0 Cases.shadowed = Some (Js.Proto "constructor")
  /\ exists w',
       (forall fn, createSession (Some "constructor") Scenario.t0 fn Cases.shadowed = w')
       /\ trace w' = trace Cases.shadowed
                     ++ [StoreFind (QId (Some "constructor")); no_data]
       /\ heap w' = []
       /\ sessionIndex w' !! "constructor" = Some (Js.Proto "constructor")
       /\ getSession "u1" w' = Some (Js.Proto "constructor").
Proof.
  split; [vm_compute; reflexivity|].
  eexists. split; [intros fn; vm_compute; reflexivity|].
  vm_compute. auto.
Qed.



(** X13. When the lookup of [createSession] fails, the callback receives
    the store's error and no Session, and nothing has been built or
    indexed: the heap of Sessions, both indexes and the listeners are as
    they were. *)
Theorem createSession_lookup_fails (i : string) (now : Z) (w : World) (e : error)
    (fs : list (option error)) :
  i ≠ "" ->
  faults w = Some e :: fs ->
  exists w',
    (forall fn, createSession (Some i) now fn w = fn (Some e) None w')
    /\ heap w' = heap w
    /\ sessionIndex w' = sessionIndex w
    /\ userSessionIndex w' = userSessionIndex w
    /\ socketQueue w' = socketQueue w.
Proof.
  intros Hi Hf. unfold createSession. rewrite (truthy_str_Some i Hi).
  unfold Store.find, Store.next_fault. cbn [faults log]. rewrite Hf.
  eexists. split; [intros fn; reflexivity|].
  destruct (sweepIfDue_frame now (set_faults fs (log (StoreFind (QId (Some i))) w)))
    as (F1 & F2 & F3 & _ & _ & F6).
  rewrite F1, F2, F3, F6. auto.
Qed.

Lemma createSession_lookup_fails_witness :
  exists w',
    (forall fn, createSession (Some "abc") Scenario.t0 fn
                  (set_faults [Some Scenario.ECONNRESET] Scenario.active)
                = fn (Some Scenario.ECONNRESET) None w')
    /\ heap w' = heap Scenario.active
    /\ sessionIndex w' = sessionIndex Scenario.active.
Proof.
  destruct (createSession_lookup_fails "abc" Scenario.t0
              (set_faults [Some Scenario.ECONNRESET] Scenario.active)
              Scenario.ECONNRESET [])
    as (w' & H1 & H2 & H3 & _).
  - discriminate.
  - reflexivity.
  - exists w'. auto.
Defined.



(** ** The sweep and the store *)

Lemma cleanup_acknowledged (now : Z) (w : World) :
  next_ok w ->
  cleanupInactiveSessions now w
  = set_lastRun (Some now)
      (set_rows (Store.purge (cleanupQuery now (maxAge w)))
         (set_faults (tail (faults w)) (log (StoreRemove (cleanupQuery now (maxAge w))) w))).
Proof.
  intros Hok. unfold cleanupInactiveSessions, Store.remove.
  rewrite next_fault_ok by exact Hok. reflexivity.
Qed.

Lemma purge_idem (q : query) (rs : list record) :
  Store.purge q (Store.purge q rs) = Store.purge q rs.
Proof.
  unfold Store.purge. induction rs as [|d rs IH]; [reflexivity|].
  cbn [List.filter]. destruct (negb (matches q d)) eqn:E; [|exact IH].
  cbn [List.filter]. rewrite E, IH. reflexivity.
Qed.

(** X15. A sweep the store acknowledges keeps exactly the records whose
    [lastActive] is a number not below [now - maxAge], in their order; it
    does not touch the Sessions or the indexes, so [getSession] still
    returns the cached Session of a user whose record was swept; and a
    second sweep at the same time finds nothing more to delete. *)
Theorem sweep_keeps_fresh_records (now : Z) (w : World) :
  ok_for 2 w ->
  (forall d, d ∈ rows (cleanupInactiveSessions now w) <->
     d ∈ rows w /\ exists t, lastActive d = Some t /\ (now - maxAge w <= t)%Z)
  /\ heap (cleanupInactiveSessions now w) = heap w
  /\ sessionIndex (cleanupInactiveSessions now w) = sessionIndex w
  /\ (forall u, getSession u (cleanupInactiveSessions now w) = getSession u w)
  /\ rows (cleanupInactiveSessions now (cleanupInactiveSessions now w))
     = rows (cleanupInactiveSessions now w).
Proof.
  intros Hok2.
  assert (Hok : next_ok w) by exact (ok_for_next 1 w Hok2).
  rewrite (cleanup_acknowledged now w Hok).
  set (w1 := set_lastRun (Some now) _).
  assert (Hrows : rows w1 = Store.purge (cleanupQuery now (maxAge w)) (rows w)) by reflexivity.
  assert (Hok1 : next_ok w1).
  { apply (ok_for_next 0). apply (ok_for_tail 1 w); [reflexivity|exact Hok2]. }
  split; [|split; [reflexivity|split; [reflexivity|split; [reflexivity|]]]].
  - intros d. rewrite Hrows. unfold Store.purge.
    rewrite list_elem_of_In, filter_In, <- list_elem_of_In.
    split; intros [Hin Hf]; (split; [exact Hin|]).
    + destruct (matches (cleanupQuery now (maxAge w)) d) eqn:E; [discriminate|].
      destruct (lastActive d) as [t|] eqn:Ht.
      * exists t. split; [reflexivity|].
        destruct (Z.lt_ge_cases t (now - maxAge w)) as [Hlt|Hge]; [|exact Hge].
        exfalso. assert (matches (cleanupQuery now (maxAge w)) d = true); [|congruence].
        apply cleanupQuery_selects. left. exists t. auto.
      * exfalso. assert (matches (cleanupQuery now (maxAge w)) d = true); [|congruence].
        apply cleanupQuery_selects. right. exact Ht.
    + destruct Hf as (t & Ht & Hge).
      destruct (matches (cleanupQuery now (maxAge w)) d) eqn:E; [|reflexivity].
      apply cleanupQuery_selects in E as [(t' & Ht' & Hlt)|Hn]; [|congruence].
      rewrite Ht in Ht'. inversion Ht'; subst. lia.
  - rewrite (cleanup_acknowledged now w1 Hok1). cbn [rows set_lastRun set_rows].
    change (maxAge w1) with (maxAge w). cbn [rows set_faults log]. rewrite Hrows.
    apply purge_idem.
Qed.

(** ** emitToUsers and the listeners *)

Lemma emitToUser_live (a : args) (w : World) (u : user) :
  ¬ waiting w u ->
  emitToUser a w u
  = logs match live_socket w u with Some s => [SocketEmit s a] | None => [] end w.
Proof.
  intros Hnw. unfold emitToUser, live_socket, Js.get.
  destruct (userSessionIndex w !! _) as [[r|n]|] eqn:Hu.
  - unfold socket_emit. fold (wrapper_key (deref w r)).
    destruct (socketIndex w !! wrapper_key (deref w r)) as [sock|] eqn:Hs.
    + reflexivity.
    + exfalso. apply Hnw. exists r. auto.
  - symmetry. apply logs_nil.
  - destruct (Js.inherited _); symmetry; apply logs_nil.
Qed.

(** X16. For a list of users none of whom has a cached but unbound
    Session, [emitToUsers] sends the event once per listed user who has a
    live socket, in list order, and does nothing for the others; it
    touches neither the Sessions, nor the indexes, nor the store. *)
Theorem emitToUsers_delivers (us : list user) (event data : string) (w : World) :
  (forall u, u ∈ us -> ¬ waiting w u) ->
  emitToUsers (ManyUsers us) event data w
  = logs (map (fun s => SocketEmit s [event; data]) (omap (live_socket w) us)) w.
Proof.
  cbn [emitToUsers]. revert w. induction us as [|u us IH]; intros w Hnw.
  - symmetry. apply logs_nil.
  - cbn [foldl]. rewrite (emitToUser_live _ w u) by (apply Hnw; left).
    assert (Hrest : forall es u', u' ∈ us -> ¬ waiting (logs es w) u').
    { intros es u' Hin Hw. apply (Hnw u'); [right; exact Hin|exact Hw]. }
    rewrite IH by (apply Hrest).
    rewrite logs_logs. change (omap (live_socket w) (u :: us))
      with (match live_socket w u with
            | Some s => s :: omap (live_socket w) us
            | None => omap (live_socket w) us
            end).
    destruct (live_socket w u) as [sock|]; reflexivity.
Qed.

Lemma quiet_refl (w : World) : quiet w w.
Proof. split; reflexivity. Qed.

Lemma quiet_trans (w1 w2 w3 : World) : quiet w1 w2 -> quiet w2 w3 -> quiet w1 w3.
Proof. intros [A B] [C D]. split; congruence. Qed.

Lemma quiet_listeners_ok (w w' : World) : quiet w w' -> listeners_ok w -> listeners_ok w'.
Proof. intros [Q L] [N F]. split; rewrite Q; [exact N|]. rewrite L. exact F. Qed.

Lemma update_quiet (r : nat) (f : Session -> Session) (w : World) : quiet w (update r f w).
Proof. split; [reflexivity|]. unfold update. cbn [heap set_heap]. apply length_insert. Qed.

Lemma issue_quiet (r : nat) (w : World) (c : call) : quiet w (issue r w c).
Proof.
  destruct c; cbn [issue]; unfold socket_on, socket_emit;
    destruct (socketIndex w !! _); first [apply update_quiet | split; reflexivity].
Qed.

Lemma new_Session_listeners_ok (d : record) (now : Z) (w : World) :
  listeners_ok w -> listeners_ok (new_Session d now w).2.
Proof.
  intros [N F]. unfold new_Session, listeners_ok.
  cbn [snd socketQueue heap set_socketQueue set_heap].
  rewrite map_app, length_app. cbn [map snd length]. split.
  - apply NoDup_app. split; [exact N|]. split; [|apply NoDup_singleton].
    intros x Hin Hx. apply list_elem_of_singleton in Hx. subst x.
    apply list_elem_of_fmap in Hin as (l & Hl & Hin).
    rewrite Forall_forall in F. specialize (F l Hin). lia.
  - apply Forall_app. split.
    + eapply Forall_impl; [exact F|]. intros l Hl. cbn beta in *. lia.
    + apply Forall_singleton. cbn [snd]. lia.
Qed.

Lemma filter_listeners (f : string * nat -> bool) (q : list (string * nat)) (n : nat) :
  NoDup (map snd q) -> Forall (fun l => snd l < n) q ->
  NoDup (map snd (List.filter f q)) /\ Forall (fun l => snd l < n) (List.filter f q).
Proof.
  intros N F. split.
  - clear F. induction q as [|[k r] q IH]; [constructor|].
    cbn [map snd] in N. apply NoDup_cons in N as [Hr N].
    cbn [List.filter]. destruct (f (k, r)); [|apply IH; exact N].
    cbn [map snd]. apply NoDup_cons. split; [|apply IH; exact N].
    intros Hin. apply Hr. apply list_elem_of_fmap in Hin as (l & Hl & Hin).
    apply list_elem_of_fmap. exists l. split; [exact Hl|].
    apply list_elem_of_In in Hin. apply filter_In in Hin as [Hin _].
    apply list_elem_of_In. exact Hin.
  - rewrite Forall_forall in *. intros l Hin. apply F.
    apply list_elem_of_In in Hin. apply filter_In in Hin as [Hin _].
    apply list_elem_of_In. exact Hin.
Qed.

Lemma connection_listeners_ok (sock : socket) (cookie : option string) (w : World) :
  listeners_ok w -> listeners_ok (connection sock cookie w).
Proof.
  intros [N F]. destruct cookie as [c|]; [|split; assumption].
  destruct (String.eqb c "") eqn:E.
  - unfold connection, Js.truthy_str. rewrite E. split; assumption.
  - assert (Hc : c ≠ "") by (intros ->; discriminate).
    destruct (connection_fields sock c w Hc) as (C1 & _ & _ & _ & _ & C6 & _).
    unfold listeners_ok. rewrite C1, C6. apply filter_listeners; assumption.
Qed.

Lemma cleanup_quiet (now : Z) (w : World) : quiet w (cleanupInactiveSessions now w).
Proof.
  unfold cleanupInactiveSessions, Store.remove, Store.next_fault. cbn [faults log].
  destruct (faults w) as [|[e|] fs]; split; reflexivity.
Qed.

Lemma sweepIfDue_quiet (now : Z) (w : World) : quiet w (sweepIfDue now w).
Proof.
  unfold sweepIfDue. destruct (Js.lt _ _); [apply cleanup_quiet|apply quiet_refl].
Qed.

Lemma emitToUser_quiet (a : args) (w : World) (u : user) : quiet w (emitToUser a w u).
Proof.
  unfold emitToUser. destruct (Js.get _ _) as [[r|n]|]; try apply quiet_refl.
  apply (issue_quiet r w (Emit a)).
Qed.

Lemma emitToUsers_quiet (found : users) (event data : string) (w : World) :
  quiet w (emitToUsers found event data w).
Proof.
  destruct found as [|u|us]; cbn [emitToUsers].
  - split; reflexivity.
  - destruct (Js.truthy_str (user_id u)); [apply emitToUser_quiet|split; reflexivity].
  - revert w. induction us as [|u us IH]; intros w; [apply quiet_refl|].
    cbn [foldl]. eapply quiet_trans; [apply emitToUser_quiet|apply IH].
Qed.

Lemma fetch_quiet (r : nat) (w : World) :
  exists w',
    quiet w w'
    /\ ((exists err d, forall fn, fetch r fn w = fn err d w')
        \/ (forall fn, fetch r fn w = w')).
Proof.
  unfold fetch, Store.first, Store.next_fault. cbn [faults log].
  destruct (faults w) as [|[e|] fs].
  - cbn [rows log]. destruct (Store.select _ (rows w)) as [d|].
    + eexists. split; [|left; eexists None, (Some d); intros fn; reflexivity].
      split; [reflexivity|]. unfold set, update. cbn [heap set_heap log].
      apply length_insert.
    + eexists. split; [|right; intros fn; reflexivity]. split; reflexivity.
  - eexists. split; [|right; intros fn; reflexivity]. split; reflexivity.
  - cbn [rows log set_faults]. destruct (Store.select _ (rows w)) as [d|].
    + eexists. split; [|left; eexists None, (Some d); intros fn; reflexivity].
      split; [reflexivity|]. unfold set, update. cbn [heap set_heap log set_faults].
      apply length_insert.
    + eexists. split; [|right; intros fn; reflexivity]. split; reflexivity.
Qed.

Lemma indexes_quiet (w : World) (b1 b2 : bool)
    (f g : gmap string Js.value -> gmap string Js.value) :
  quiet w (if b2 then set_userSessionIndex g (if b1 then set_sessionIndex f w else w)
           else (if b1 then set_sessionIndex f w else w)).
Proof. destruct b1, b2; split; reflexivity. Qed.

Lemma stamp_or_not (now : Z) (sess : nat) (c : bool) (f : Session -> Session) (w0 w3 : World) :
  quiet w0 w3 ->
  exists w',
    (forall fn : option error -> option nat -> World -> World,
        (if c then save sess (fun _ _ w' => fn None (Some sess) w') (update sess f w3)
         else fn None (Some sess) w3) = fn None (Some sess) w')
    /\ quiet w0 w'.
Proof.
  intros H3. destruct c.
  - destruct (save_calls_back sess (update sess f w3)) as (e & res & w' & Hk & _ & Hl & Hq).
    exists w'. split; [intros fn; apply Hk|].
    eapply quiet_trans; [exact H3|].
    apply (quiet_trans _ (update sess f w3)); [apply update_quiet|]. split; assumption.
  - exists w3. split; [reflexivity|exact H3].
Qed.

Lemma createSession_stamp_quiet (r : nat) (now : Z) (w0 w : World) :
  quiet w0 w ->
  exists w',
    (forall fn, createSession_stamp r now fn w = fn None (Some r) w')
    /\ quiet w0 w'.
Proof.
  intros Hq. unfold createSession_stamp. cbv zeta.
  match goal with
  | |- context [if ?c then save r _ (update r ?f w) else _] =>
      apply (stamp_or_not now r c f w0 w Hq)
  end.
Qed.

Lemma createSession_found_listeners (sid0 : option string) (now : Z)
    (err : option error) (s0 : option record) (w : World)
    (fn : option error -> option nat -> World -> World) :
  (forall e r w', listeners_ok w' -> listeners_ok (fn e r w')) ->
  listeners_ok w ->
  listeners_ok (createSession_found sid0 now fn err s0 w).
Proof.
  intros Hfn Hw. unfold createSession_found. destruct err as [e|]; [apply Hfn, Hw|].
  cbv zeta. destruct (Js.get (sessionIndex w) _) as [[r|n]|].
  - match goal with
    | |- context [createSession_stamp r now fn ?W3] =>
        destruct (createSession_stamp_quiet r now w W3) as (w' & Hk & Hq);
          [apply indexes_quiet|]
    end.
    rewrite Hk. apply Hfn. apply (quiet_listeners_ok w w' Hq Hw).
  - match goal with
    | |- listeners_ok (log _ ?W3) =>
        assert (Hq : quiet w W3) by apply indexes_quiet;
        apply (quiet_listeners_ok w); [|exact Hw];
        apply (quiet_trans _ W3); [exact Hq|split; reflexivity]
    end.
  - match goal with
    | |- context [new_Session ?d now w] =>
        pose proof (new_Session_listeners_ok d now w) as Hnew;
        destruct (new_Session d now w) as [r w1]
    end.
    cbn [snd] in Hnew.
    match goal with
    | |- context [createSession_stamp r now fn ?W3] =>
        destruct (createSession_stamp_quiet r now w1 W3) as (w' & Hk & Hq);
          [apply indexes_quiet|]
    end.
    rewrite Hk. apply Hfn. apply (quiet_listeners_ok w1 w' Hq), Hnew, Hw.
Qed.

Lemma SessionStore_listeners_ok (o : option Z) (db : list record)
    (script : list (option error)) (rnd : nat -> Byte.byte) (now : Z) :
  listeners_ok (SessionStore o db script rnd now).
Proof.
  unfold SessionStore. eapply quiet_listeners_ok; [apply cleanup_quiet|].
  split; [apply NoDup_nil; reflexivity|apply Forall_nil; exact I].
Qed.

(** X17. Every registered listener belongs to an existing Session and no
    Session has two listeners: this holds when the store object has just
    been built, and every operation of the session layer keeps it, given
    that the callbacks it is handed keep it. *)
Theorem listeners_invariant :
  (forall o db script rnd now, listeners_ok (SessionStore o db script rnd now))
  /\ forall w, listeners_ok w ->
       (forall sock cookie, listeners_ok (connection sock cookie w))
       /\ (forall r c, listeners_ok (issue r w c))
       /\ (forall a r, listeners_ok (set a r w))
       /\ (forall now, listeners_ok (cleanupInactiveSessions now w))
       /\ (forall found event data, listeners_ok (emitToUsers found event data w))
       /\ (forall target r fn,
             (forall e w', listeners_ok w' -> listeners_ok (fn e w')) ->
             listeners_ok (remove target r fn w))
       /\ (forall r fn,
             (forall e res w', listeners_ok w' -> listeners_ok (fn e res w')) ->
             listeners_ok (save r fn w))
       /\ (forall r fn,
             (forall e res w', listeners_ok w' -> listeners_ok (fn e res w')) ->
             listeners_ok (fetch r fn w))
       /\ (forall sid0 now fn,
             (forall e r w', listeners_ok w' -> listeners_ok (fn e r w')) ->
             listeners_ok (createSession sid0 now fn w)).
Proof.
  split; [apply SessionStore_listeners_ok|]. intros w Hw. split_and!.
  - intros sock cookie. apply connection_listeners_ok, Hw.
  - intros r c. apply (quiet_listeners_ok w); [apply issue_quiet|exact Hw].
  - intros a r. apply (quiet_listeners_ok w); [apply update_quiet|exact Hw].
  - intros now. apply (quiet_listeners_ok w); [apply cleanup_quiet|exact Hw].
  - intros found event data.
    apply (quiet_listeners_ok w); [apply emitToUsers_quiet|exact Hw].
  - intros target r fn Hfn.
    destruct (remove_calls_back target r w) as (err & w' & Hk & Hh & Hq).
    rewrite Hk. apply Hfn. apply (quiet_listeners_ok w); [|exact Hw].
    split; [exact Hq|]. rewrite Hh. reflexivity.
  - intros r fn Hfn.
    destruct (save_calls_back r w) as (e & res & w' & Hk & _ & Hl & Hq).
    rewrite Hk. apply Hfn. apply (quiet_listeners_ok w); [|exact Hw]. split; assumption.
  - intros r fn Hfn.
    destruct (fetch_quiet r w) as (w' & Hq & [(err & d & Hk)|Hk]); rewrite Hk.
    + apply Hfn. apply (quiet_listeners_ok w); assumption.
    + apply (quiet_listeners_ok w); assumption.
  - intros sid0 now fn Hfn. unfold createSession.
    destruct (Js.truthy_str sid0).
    + unfold Store.find.
      match goal with
      | |- context [Store.next_fault ?W] =>
          assert (HW : listeners_ok W) by exact Hw;
          assert (HF : forall f W1, Store.next_fault W = (f, W1) -> listeners_ok W1)
      end.
      { unfold Store.next_fault. cbn [faults log].
        destruct (faults w) as [|f0 fs]; intros f W1 E; inversion E; subst; exact Hw. }
      destruct (Store.next_fault _) as [f W1] eqn:E. specialize (HF f W1 eq_refl).
      assert (HS : listeners_ok (sweepIfDue now W1))
        by (apply (quiet_listeners_ok W1); [apply sweepIfDue_quiet|exact HF]).
      destruct f as [e|]; apply createSession_found_listeners; assumption.
    + pose proof (new_Session_listeners_ok anonymous_record now w Hw) as Hnew.
      destruct (new_Session anonymous_record now w) as [sess w1]. cbn [snd] in Hnew.
      apply (quiet_listeners_ok (fn None (Some sess) w1)); [apply sweepIfDue_quiet|].
      apply Hfn, Hnew.
Qed.

(** ** The names the wrappers look up *)

Lemma same_wrappers_refl (w : World) : same_wrappers w w.
Proof. reflexivity. Qed.

Lemma same_wrappers_trans (w1 w2 w3 : World) :
  same_wrappers w1 w2 -> same_wrappers w2 w3 -> same_wrappers w1 w3.
Proof. unfold same_wrappers. congruence. Qed.

Lemma same_heap_wrappers (w w' : World) : heap w' = heap w -> same_wrappers w w'.
Proof. unfold same_wrappers. intros ->. reflexivity. Qed.

Lemma same_wrappers_ok (w w' : World) :
  same_wrappers w w' -> wrappers_ok w -> wrappers_ok w'.
Proof.
  unfold same_wrappers, wrappers_ok, wrapper_key. intros E H.
  assert (H' : Forall (fun o => Js.inherited (Js.prop_key (Js.of_field o)) = false)
                 (map wrapper_sid (heap w))) by (apply Forall_fmap; exact H).
  rewrite <- E in H'. apply Forall_fmap in H'. exact H'.
Qed.

Lemma update_wrappers (r : nat) (f : Session -> Session) (w : World) :
  (forall s, wrapper_sid (f s) = wrapper_sid s) -> same_wrappers w (update r f w).
Proof.
  intros Hf. unfold same_wrappers, update. cbn [heap set_heap].
  rewrite list_fmap_insert, Hf. unfold deref.
  destruct (heap w !! r) as [s|] eqn:E.
  - apply list_insert_id. rewrite list_lookup_fmap, E. reflexivity.
  - apply list_insert_ge. rewrite length_fmap. apply lookup_ge_None. exact E.
Qed.

Lemma issue_wrappers (r : nat) (w : World) (c : call) : same_wrappers w (issue r w c).
Proof.
  destruct c; cbn [issue]; unfold socket_on, socket_emit;
    destruct (socketIndex w !! _);
    first [apply update_wrappers; intros s; reflexivity | unfold same_wrappers; reflexivity].
Qed.

Lemma cleanup_wrappers (now : Z) (w : World) :
  same_wrappers w (cleanupInactiveSessions now w).
Proof.
  unfold cleanupInactiveSessions, Store.remove, Store.next_fault. cbn [faults log].
  destruct (faults w) as [|[e|] fs]; reflexivity.
Qed.

Lemma sweepIfDue_wrappers (now : Z) (w : World) : same_wrappers w (sweepIfDue now w).
Proof.
  unfold sweepIfDue. destruct (Js.lt _ _); [apply cleanup_wrappers|apply same_wrappers_refl].
Qed.

Lemma emitToUsers_wrappers (found : users) (event data : string) (w : World) :
  same_wrappers w (emitToUsers found event data w).
Proof.
  assert (H1 : forall a w u, same_wrappers w (emitToUser a w u)).
  { intros a w0 u. unfold emitToUser.
    destruct (Js.get _ _) as [[r|n]|]; try apply same_wrappers_refl.
    apply (issue_wrappers r w0 (Emit a)). }
  destruct found as [|u|us]; cbn [emitToUsers].
  - reflexivity.
  - destruct (Js.truthy_str (user_id u)); [apply H1|reflexivity].
  - revert w. induction us as [|u us IH]; intros w; [apply same_wrappers_refl|].
    cbn [foldl]. eapply same_wrappers_trans; [apply H1|apply IH].
Qed.

Lemma fetch_wrappers (r : nat) (w : World) :
  exists w',
    same_wrappers w w'
    /\ ((exists err d, forall fn, fetch r fn w = fn err d w')
        \/ (forall fn, fetch r fn w = w')).
Proof.
  unfold fetch, Store.first, Store.next_fault. cbn [faults log].
  assert (Hset : forall d W, heap W = heap w -> same_wrappers w (set d r W)).
  { intros d W E. apply (same_wrappers_trans _ W); [apply same_heap_wrappers, E|].
    apply update_wrappers. intros s. reflexivity. }
  destruct (faults w) as [|[e|] fs].
  - cbn [rows log]. destruct (Store.select _ (rows w)) as [d|].
    + eexists. split; [|left; eexists None, (Some d); intros fn; reflexivity].
      apply Hset. reflexivity.
    + eexists. split; [|right; intros fn; reflexivity]. reflexivity.
  - eexists. split; [|right; intros fn; reflexivity]. reflexivity.
  - cbn [rows log set_faults]. destruct (Store.select _ (rows w)) as [d|].
    + eexists. split; [|left; eexists None, (Some d); intros fn; reflexivity].
      apply Hset. reflexivity.
    + eexists. split; [|right; intros fn; reflexivity]. reflexivity.
Qed.

Lemma indexed_wrappers (r : nat) (v : Js.ident) (res : record) (w : World) :
  same_wrappers w (indexed r v res w).
Proof.
  unfold indexed.
  apply (same_wrappers_trans _ (update r (with_data res) w));
    [apply update_wrappers; intros s; reflexivity|].
  match goal with
  | |- same_wrappers ?W1 (update r ?f ?W3) =>
      apply (same_wrappers_trans _ W3);
        [|apply update_wrappers; intros s; reflexivity]
  end.
  destruct (Js.truthy_str (uid res)); reflexivity.
Qed.

Lemma save_wrappers (r : nat) (w : World) :
  exists e res w',
    (forall fn, save r fn w = fn e res w') /\ same_wrappers w w'.
Proof.
  unfold save. destruct (save_prepare_quiet r w) as [Hh _].
  destruct (save_prepare r w) as [[d v] w1]. cbn [snd] in Hh.
  destruct (remove_calls_back (Some d) r w1) as (err & w2 & Hk & Hh2 & _).
  assert (H2 : same_wrappers w w2) by (apply same_heap_wrappers; congruence).
  unfold save_removed. destruct err as [e|].
  - exists (Some e), None, w2. split; [intros fn; rewrite Hk; reflexivity|exact H2].
  - destruct (store_insert_quiet d w2) as (out & w3 & Hk3 & Hh3 & _).
    assert (H3 : same_wrappers w w3) by (apply same_heap_wrappers; congruence).
    destruct out as [e|res].
    + exists (Some e), None, w3. split; [|exact H3].
      intros fn. rewrite Hk, Hk3. reflexivity.
    + exists None, (Some res), (indexed r v res w3). split.
      * intros fn. rewrite Hk, Hk3. reflexivity.
      * eapply same_wrappers_trans; [exact H3|apply indexed_wrappers].
Qed.

Lemma createSession_stamp_wrappers (r : nat) (now : Z) (w0 w : World) :
  same_wrappers w0 w ->
  exists w',
    (forall fn, createSession_stamp r now fn w = fn None (Some r) w')
    /\ same_wrappers w0 w'.
Proof.
  intros H0. unfold createSession_stamp. cbv zeta.
  match goal with
  | |- context [if ?c then save r _ (update r ?f w) else _] =>
      destruct c;
        [ destruct (save_wrappers r (update r f w)) as (e & res & w' & Hk & Hs)
        | exists w; split; [reflexivity|exact H0] ]
  end.
  exists w'. split; [intros fn; apply Hk|].
  eapply same_wrappers_trans; [exact H0|].
  eapply same_wrappers_trans; [|exact Hs].
  apply update_wrappers. intros s. reflexivity.
Qed.

Lemma indexes_heap (w : World) (b1 b2 : bool)
    (f g : gmap string Js.value -> gmap string Js.value) :
  heap (if b2 then set_userSessionIndex g (if b1 then set_sessionIndex f w else w)
        else (if b1 then set_sessionIndex f w else w)) = heap w.
Proof. destruct b1, b2; reflexivity. Qed.

Lemma new_Session_wrappers (d : record) (now : Z) (w : World) :
  Js.inherited (Js.prop_key (Js.of_field (if Js.truthy_str (id d) then id d else None)))
  = false ->
  wrappers_ok w -> wrappers_ok (new_Session d now w).2.
Proof.
  intros Hd Hw. unfold wrappers_ok, new_Session. cbn [snd heap set_socketQueue set_heap].
  apply Forall_app. split; [exact Hw|]. apply Forall_singleton. exact Hd.
Qed.

Lemma select_id (i : option string) (rs : list record) (s : record) :
  Store.select (QId i) rs = Some s -> id s = i.
Proof.
  unfold Store.select. intros H. apply find_some in H as [_ H].
  cbn [matches] in H. apply bool_decide_eq_true in H. exact H.
Qed.

Lemma createSession_found_wrappers (sid0 : option string) (now : Z)
    (err : option error) (s0 : option record) (w : World)
    (fn : option error -> option nat -> World -> World) :
  (forall s, s0 = Some s -> id s = sid0) ->
  (forall e r w', wrappers_ok w' -> wrappers_ok (fn e r w')) ->
  wrappers_ok w ->
  wrappers_ok (createSession_found sid0 now fn err s0 w).
Proof.
  intros Hs0 Hfn Hw. unfold createSession_found. destruct err as [e|]; [apply Hfn, Hw|].
  cbv zeta. rewrite found_key_prop.
  destruct (Js.get (sessionIndex w) (found_key sid0 now s0 w)) as [[r|n]|] eqn:Hget.
  - match goal with
    | |- context [createSession_stamp r now fn ?W3] =>
        destruct (createSession_stamp_wrappers r now w W3) as (w' & Hk & Hq);
          [apply same_heap_wrappers, indexes_heap|]
    end.
    rewrite Hk. apply Hfn. apply (same_wrappers_ok w w' Hq Hw).
  - match goal with
    | |- wrappers_ok (log _ ?W3) =>
        apply (same_wrappers_ok w); [|exact Hw];
        apply same_heap_wrappers; cbn [heap log]; apply indexes_heap
    end.
  - match goal with
    | |- context [new_Session ?d now w] =>
        assert (Hnew : wrappers_ok (new_Session d now w).2);
          [ apply new_Session_wrappers; [|exact Hw]
          | destruct (new_Session d now w) as [r w1] ]
    end.
    + apply get_None in Hget as [_ Hin]. unfold found_key in Hin.
      destruct s0 as [s|]; [|reflexivity]. cbn beta iota in Hin |- *.
      destruct (Js.lt (lastActive s) (now - maxAge w)); [reflexivity|].
      cbn [default from_option]. unfold Datatypes.id. rewrite (Hs0 s eq_refl).
      destruct (Js.truthy_str sid0); [exact Hin|reflexivity].
    + cbn [snd] in Hnew.
      match goal with
      | |- context [createSession_stamp r now fn ?W3] =>
          destruct (createSession_stamp_wrappers r now w1 W3) as (w' & Hk & Hq);
            [apply same_heap_wrappers, indexes_heap|]
      end.
      rewrite Hk. apply Hfn. apply (same_wrappers_ok w1 w' Hq Hnew).
Qed.

(** X23. No Session is built for a name that [Object.prototype] defines:
    the name every Session's wrapper looks up in the socket index, which
    is also the event its listener waits for, is the id the Session was
    constructed with or "undefined", and [createSession] constructs a
    Session only where the session index yields nothing. This holds when
    the store object has just been built, and every operation of the
    session layer keeps it, given that the callbacks it is handed keep
    it. *)
Theorem wrappers_plain :
  (forall o db script rnd now, wrappers_ok (SessionStore o db script rnd now))
  /\ forall w, wrappers_ok w ->
       (forall sock cookie, wrappers_ok (connection sock cookie w))
       /\ (forall r c, wrappers_ok (issue r w c))
       /\ (forall a r, wrappers_ok (set a r w))
       /\ (forall now, wrappers_ok (cleanupInactiveSessions now w))
       /\ (forall found event data, wrappers_ok (emitToUsers found event data w))
       /\ (forall target r fn,
             (forall e w', wrappers_ok w' -> wrappers_ok (fn e w')) ->
             wrappers_ok (remove target r fn w))
       /\ (forall r fn,
             (forall e res w', wrappers_ok w' -> wrappers_ok (fn e res w')) ->
             wrappers_ok (save r fn w))
       /\ (forall r fn,
             (forall e res w', wrappers_ok w' -> wrappers_ok (fn e res w')) ->
             wrappers_ok (fetch r fn w))
       /\ (forall sid0 now fn,
             (forall e r w', wrappers_ok w' -> wrappers_ok (fn e r w')) ->
             wrappers_ok (createSession sid0 now fn w)).
Proof.
  split.
  { intros o db script rnd now. unfold SessionStore.
    eapply same_wrappers_ok; [apply cleanup_wrappers|]. apply Forall_nil. exact I. }
  intros w Hw. split_and!.
  - intros sock cookie. destruct cookie as [c|]; [|exact Hw].
    destruct (String.eqb c "") eqn:E.
    + unfold connection, Js.truthy_str. rewrite E. exact Hw.
    + assert (Hc : c ≠ "") by (intros ->; discriminate).
      destruct (connection_fields sock c w Hc) as (C1 & _).
      apply (same_wrappers_ok w); [apply same_heap_wrappers, C1|exact Hw].
  - intros r c. apply (same_wrappers_ok w); [apply issue_wrappers|exact Hw].
  - intros a r. apply (same_wrappers_ok w); [|exact Hw].
    apply update_wrappers. intros s. reflexivity.
  - intros now. apply (same_wrappers_ok w); [apply cleanup_wrappers|exact Hw].
  - intros found event data.
    apply (same_wrappers_ok w); [apply emitToUsers_wrappers|exact Hw].
  - intros target r fn Hfn.
    destruct (remove_calls_back target r w) as (err & w' & Hk & Hh & _).
    rewrite Hk. apply Hfn. apply (same_wrappers_ok w); [|exact Hw].
    apply same_heap_wrappers, Hh.
  - intros r fn Hfn.
    destruct (save_wrappers r w) as (e & res & w' & Hk & Hs).
    rewrite Hk. apply Hfn. apply (same_wrappers_ok w); assumption.
  - intros r fn Hfn.
    destruct (fetch_wrappers r w) as (w' & Hq & [(err & d & Hk)|Hk]); rewrite Hk.
    + apply Hfn. apply (same_wrappers_ok w); assumption.
    + apply (same_wrappers_ok w); assumption.
  - intros sid0 now fn Hfn. unfold createSession.
    destruct (Js.truthy_str sid0).
    + unfold Store.find.
      assert (HF : forall f W1,
                 Store.next_fault (log (StoreFind (QId sid0)) w) = (f, W1) ->
                 wrappers_ok W1 /\ rows W1 = rows w).
      { unfold Store.next_fault. cbn [faults log].
        destruct (faults w) as [|f0 fs]; intros f W1 E; inversion E; subst; auto. }
      destruct (Store.next_fault _) as [f W1] eqn:E.
      destruct (HF f W1 eq_refl) as [HW1 Hrows].
      assert (HS : wrappers_ok (sweepIfDue now W1))
        by (apply (same_wrappers_ok W1); [apply sweepIfDue_wrappers|exact HW1]).
      destruct f as [e|]; apply createSession_found_wrappers; try assumption.
      * intros s Hs. discriminate.
      * intros s Hs. apply select_id in Hs. exact Hs.
    + assert (Hnew : wrappers_ok (new_Session anonymous_record now w).2)
        by (apply new_Session_wrappers; [reflexivity|exact Hw]).
      destruct (new_Session anonymous_record now w) as [sess w1]. cbn [snd] in Hnew.
      apply (same_wrappers_ok (fn None (Some sess) w1)); [apply sweepIfDue_wrappers|].
      apply Hfn, Hnew.
Qed.

(** ** Draining the queue *)

Lemma waiting_for_NoDup (k : string) (q : list (string * nat)) :
  NoDup (map snd q) -> NoDup (waiting_for k q).
Proof.
  intros N. unfold waiting_for. induction q as [|[k' r] q IH]; [constructor|].
  cbn [map snd] in N. apply NoDup_cons in N as [Hr N].
  cbn [List.filter fst]. destruct (String.eqb k' k); [|apply IH; exact N].
  cbn [map snd]. apply NoDup_cons. split; [|apply IH; exact N].
  intros Hin. apply Hr. apply list_elem_of_fmap in Hin as (l & Hl & Hin).
  apply list_elem_of_fmap. exists l. split; [exact Hl|].
  apply list_elem_of_In in Hin. apply filter_In in Hin as [Hin _].
  apply list_elem_of_In. exact Hin.
Qed.

Lemma waiting_for_other (k k' : string) (q : list (string * nat)) :
  k' ≠ k ->
  waiting_for k' (List.filter (fun l => negb (String.eqb (fst l) k)) q) = waiting_for k' q.
Proof.
  intros Hne. unfold waiting_for. induction q as [|[k0 r] q IH]; [reflexivity|].
  cbn [List.filter fst]. destruct (String.eqb k0 k) eqn:E; cbn [negb].
  - apply String.eqb_eq in E. subst k0.
    destruct (String.eqb k k') eqn:E'; [|exact IH].
    apply String.eqb_eq in E'. congruence.
  - cbn [List.filter fst]. destruct (String.eqb k0 k'); [|exact IH].
    cbn [map snd]. rewrite IH. reflexivity.
Qed.

(** X18. A connection carrying a non-empty id drains every Session that
    waits for that id exactly once, in the order the Sessions were built:
    no Session waits twice, what reaches the socket is the replay of each
    waiting Session in turn, afterwards nobody waits for that id, and the
    listeners for other ids stay registered. The one id that is not
    harmless is 'error': when no Session waits for it, the emitter throws
    once the socket is indexed. So a second connection with the same id
    replays nothing, and with the id 'error' it throws. *)
Theorem connection_drains_once (sock : socket) (k : string) (w : World) :
  listeners_ok w ->
  queue_plain w ->
  k ≠ "" ->
  NoDup (waiting_for k (socketQueue w))
  /\ trace (connection sock (Some k) w)
     = trace w ++ replays sock w (waiting_for k (socketQueue w))
       ++ unhandled k (socketQueue w)
  /\ (unhandled k (socketQueue w) = [unhandled_error]
      <-> k = "error" /\ waiting_for k (socketQueue w) = [])
  /\ (unhandled k (socketQueue w) = []
      <-> k ≠ "error" \/ waiting_for k (socketQueue w) ≠ [])
  /\ socketIndex (connection sock (Some k) w) !! k = Some sock
  /\ waiting_for k (socketQueue (connection sock (Some k) w)) = []
  /\ (forall k', k' ≠ k ->
        waiting_for k' (socketQueue (connection sock (Some k) w))
        = waiting_for k' (socketQueue w))
  /\ (forall sock',
        trace (connection sock' (Some k) (connection sock (Some k) w))
        = trace (connection sock (Some k) w)
          ++ (if String.eqb k "error" then [unhandled_error] else [])).
Proof.
  intros [N _] _ Hk.
  destruct (connection_fields sock k w Hk) as (_ & _ & _ & _ & C5 & C6 & C7).
  split; [apply waiting_for_NoDup, N|].
  split; [exact C7|].
  assert (Hun : unhandled k (socketQueue w)
                = if String.eqb k "error" && negb (listening k (socketQueue w))
                  then [unhandled_error] else []) by reflexivity.
  split.
  { rewrite Hun. split.
    - destruct (String.eqb k "error") eqn:E; [|discriminate].
      destruct (listening k (socketQueue w)) eqn:L; [discriminate|]. intros _.
      split; [apply String.eqb_eq, E|apply listening_waiting, L].
    - intros [-> L]. apply listening_waiting in L. rewrite L. reflexivity. }
  split.
  { rewrite Hun. split.
    - destruct (String.eqb k "error") eqn:E.
      + destruct (listening k (socketQueue w)) eqn:L; [|discriminate]. intros _.
        right. intros Hw. apply listening_waiting in Hw. congruence.
      + intros _. left. apply String.eqb_neq, E.
    - intros [Hne|Hw].
      + apply String.eqb_neq in Hne. rewrite Hne. reflexivity.
      + destruct (listening k (socketQueue w)) eqn:L.
        * cbn [negb]. rewrite andb_false_r. reflexivity.
        * exfalso. apply Hw, listening_waiting, L. }
  split; [rewrite C5; apply lookup_insert_eq|].
  split; [rewrite C6; apply waiting_for_served|].
  split; [intros k' Hne; rewrite C6; apply waiting_for_other, Hne|].
  intros sock'.
  destruct (connection_fields sock' k (connection sock (Some k) w) Hk)
    as (_ & _ & _ & _ & _ & _ & T).
  rewrite T, C6, waiting_for_served, unhandled_served. reflexivity.
Qed.

(** X19. [emitToUsers] for a lookup that yields a single user record with
    an id: if no Session is cached for the user, nothing happens; if the
    cached Session has a live socket, the event is emitted on it once; if
    it has none, the event is appended to that Session's emit queue and
    reaches no socket. A lookup that yields nothing, or a single record
    without id, ends in a TypeError, and an empty list does nothing. *)
Theorem emitToUsers_single (u : user) (i : string) (event data : string) (w : World) :
  user_id u = Some i ->
  i ≠ "" ->
  (userSessionIndex w !! i = None -> emitToUsers (OneUser u) event data w = w)
  /\ (forall r sock,
        userSessionIndex w !! i = Some (Js.Ref r) ->
        socketIndex w !! wrapper_key (deref w r) = Some sock ->
        emitToUsers (OneUser u) event data w = log (SocketEmit sock [event; data]) w)
  /\ (forall r,
        userSessionIndex w !! i = Some (Js.Ref r) ->
        socketIndex w !! wrapper_key (deref w r) = None ->
        emitToUsers (OneUser u) event data w
        = update r (with_emitQueue
                      (Some (default [] (_emitQueue (deref w r)) ++ [[event; data]]))) w
        /\ trace (emitToUsers (OneUser u) event data w) = trace w)
  /\ trace (emitToUsers NoUsers event data w)
     = trace w ++ [Uncaught "TypeError: Cannot read properties of null (reading 'forEach')"]
  /\ (forall u', Js.truthy_str (user_id u') = false ->
        trace (emitToUsers (OneUser u') event data w)
        = trace w ++ [Uncaught "TypeError: users.forEach is not a function"])
  /\ emitToUsers (ManyUsers []) event data w = w.
Proof.
  intros Hu Hi. cbn [emitToUsers]. rewrite Hu, (truthy_str_Some i Hi).
  unfold emitToUser, Js.get. rewrite Hu. cbn [Js.of_field Js.prop_key].
  split_and!; try reflexivity.
  - intros ->. destruct (Js.inherited i); reflexivity.
  - intros r sock -> Hs. unfold socket_emit. fold (wrapper_key (deref w r)).
    rewrite Hs. reflexivity.
  - intros r -> Hs. unfold socket_emit. fold (wrapper_key (deref w r)).
    rewrite Hs. split; reflexivity.
  - intros u' Hu'. rewrite Hu'. reflexivity.
Qed.

(** ** fetch without a record, createSession with one *)

(** X20. [fetch] for a Session whose record is not in the store (it was
    never saved, or it was swept) throws as well: the store reports no
    error and no record, [set] throws on the missing record, and the
    callback is never reached, whatever it is; the Session's data and the
    store are untouched. *)
Theorem fetch_missing_record (r : nat) (w : World) :
  next_ok w ->
  Store.select (QId (id (data (deref w r)))) (rows w) = None ->
  exists w',
    (forall fn, fetch r fn w = w')
    /\ trace w' = trace w
                  ++ [ StoreFirst (QId (id (data (deref w r))));
                       Uncaught "TypeError: Cannot convert undefined or null to object" ]
    /\ heap w' = heap w
    /\ rows w' = rows w.
Proof.
  intros Hok Hsel. unfold fetch, Store.first. rewrite next_fault_ok by exact Hok.
  cbn [rows set_faults log]. rewrite Hsel.
  eexists. split; [intros fn; reflexivity|].
  cbn [trace heap rows set_faults log]. rewrite <- app_assoc. auto.
Qed.

(** X21. For an id whose record is in the store, not stale, not flagged
    anonymous and active within the last 10 seconds, and for which the
    session index yields nothing (no Session is cached under the id, and
    the id is not a name that [Object.prototype] defines),
    [createSession] builds a Session from the record (adding [createdOn]
    only if the record has none), registers it in the session index under
    the id and in the user index under the record's uid, and calls back
    with it; the request writes nothing to the store: the stored records
    are those the lookup and the sweep left. *)
Theorem createSession_builds_from_record (i : string) (now t : Z) (w : World) (s : record) :
  i ≠ "" ->
  queue_plain w ->
  next_ok w ->
  Store.select (QId (Some i)) (rows w) = Some s ->
  Js.get (sessionIndex w) i = None ->
  Js.truthy_bool (anonymous s) = false ->
  lastActive s = Some t ->
  t ≠ 0%Z ->
  (now - maxAge w <= t)%Z ->
  (now - 10 * 1000 <= t)%Z ->
  exists w',
    (forall fn, createSession (Some i) now fn w = fn None (Some (length (heap w))) w')
    /\ data (deref w' (length (heap w)))
       = (if Js.truthy_num (createdOn s) then s else with_createdOn (Some now) s)
    /\ sessionIndex w' !! i = Some (Js.Ref (length (heap w)))
    /\ (forall u, uid s = Some u -> u ≠ "" -> getSession u w' = Some (Js.Ref (length (heap w))))
    /\ rows w'
       = rows (sweepIfDue now (set_faults (tail (faults w)) (log (StoreFind (QId (Some i))) w)))
    /\ trace w'
       = trace (sweepIfDue now (set_faults (tail (faults w)) (log (StoreFind (QId (Some i))) w))).
Proof.
  intros Hi _ Hok Hsel Hidx Ha Ht H0 Hfresh Hrecent.
  pose (w1 := set_faults (tail (faults w)) (log (StoreFind (QId (Some i))) w)).
  destruct (sweepIfDue_frame now w1) as (F1 & F2 & F3 & F4 & _).
  set (W := sweepIfDue now w1) in *.
  change (sessionIndex w1) with (sessionIndex w) in F1.
  change (heap w1) with (heap w) in F3. change (maxAge w1) with (maxAge w) in F4.
  assert (Hnotstale : Js.lt (lastActive s) (now - maxAge W) = false).
  { rewrite Ht, F4. cbn [Js.lt]. apply Z.ltb_ge. exact Hfresh. }
  set (d1 := if Js.truthy_num (createdOn s) then s else with_createdOn (Some now) s).
  assert (Hd1 : lastActive d1 = Some t /\ anonymous d1 = anonymous s /\ uid d1 = uid s).
  { unfold d1. destruct (Js.truthy_num (createdOn s)); auto. }
  destruct Hd1 as (L1 & A1 & U1).
  assert (Htr : Js.truthy_num (Some t) = true).
  { cbn [Js.truthy_num]. apply Z.eqb_neq in H0. rewrite H0. reflexivity. }
  assert (Hnew : new_Session s now W
                 = (length (heap w),
                    set_socketQueue
                      (fun q => q ++ [(Js.prop_key (Js.of_field
                                         (if Js.truthy_str (id s) then id s else None)),
                                       length (heap w))])
                      (set_heap (fun h => h ++ [ {| data := d1;
                                                    sid := if Js.truthy_str (id s) then id s else None;
                                                    wrapper_sid := if Js.truthy_str (id s) then id s else None;
                                                    _bindQueue := None; _emitQueue := None |} ]) W))).
  { unfold new_Session. fold d1. rewrite L1, Htr, F3. reflexivity. }
  set (this := {| data := d1; sid := _; wrapper_sid := _; _bindQueue := None;
                  _emitQueue := None |}) in Hnew.
  set (Wn := set_socketQueue _ (set_heap _ W)) in Hnew.
  set (W2 := set_sessionIndex <[i := Js.Ref (length (heap w))]> Wn).
  set (W3 := if Js.truthy_str (uid s)
             then set_userSessionIndex
                    <[Js.prop_key (Js.of_field (uid s)) := Js.Ref (length (heap w))]> W2
             else W2).
  assert (H3 : heap W3 = heap w ++ [this]
               /\ sessionIndex W3 = <[i := Js.Ref (length (heap w))]> (sessionIndex W)
               /\ rows W3 = rows W /\ trace W3 = trace W
               /\ userSessionIndex W3
                  = (if Js.truthy_str (uid s)
                     then <[Js.prop_key (Js.of_field (uid s)) := Js.Ref (length (heap w))]>
                            (userSessionIndex W)
                     else userSessionIndex W)).
  { unfold W3, W2, Wn. destruct (Js.truthy_str (uid s));
      cbn [heap sessionIndex rows trace userSessionIndex set_userSessionIndex
           set_sessionIndex set_socketQueue set_heap]; rewrite F3; auto 10. }
  destruct H3 as (Hh & Hs & Hrw & Htc & Hus).
  assert (Hderef : deref W3 (length (heap w)) = this).
  { apply deref_Some. rewrite Hh. apply list_lookup_middle. reflexivity. }
  assert (Hfound : forall fn, createSession_found (Some i) now fn None (Some s) W
                              = fn None (Some (length (heap w))) W3).
  { intros fn. unfold createSession_found. rewrite Hnotstale.
    cbn [from_option Js.of_field Js.prop_key Js.truthy_ident].
    rewrite F1, Hidx. unfold Datatypes.id. rewrite Hnew.
    assert (Hi' : negb (String.eqb i "") = true) by (apply (truthy_str_Some i Hi)).
    rewrite Hi'. fold W2. fold W3. unfold createSession_stamp. cbv zeta.
    rewrite Hderef. cbn [data this].
    rewrite A1, Ha, L1, Htr. cbn [negb andb orb Js.lt].
    assert (Hr : (t <? now - 10 * 1000)%Z = false) by (apply Z.ltb_ge; exact Hrecent).
    rewrite Hr. reflexivity. }
  exists W3. split.
  - intros fn. unfold createSession. rewrite (truthy_str_Some i Hi).
    unfold Store.find. rewrite next_fault_ok by exact Hok.
    cbn [rows set_faults log]. rewrite Hsel. fold w1. fold W. apply Hfound.
  - rewrite Hderef, Hs, Hrw, Htc. split; [reflexivity|].
    split; [apply lookup_insert_eq|]. split; [|auto].
    intros u Hu Hu'. unfold getSession. rewrite Hus, Hu, (truthy_str_Some u Hu').
    cbn [Js.of_field Js.prop_key]. apply get_insert.
Qed.

(** ** The further properties at concrete processes *)

Lemma save_delete_fails_witness :
  exists w',
    (forall fn, save 0 fn Cases.failing = fn (Some Scenario.ECONNRESET) None w')
    /\ rows w' = rows Cases.failing
    /\ sessionIndex w' = delete "abc" (sessionIndex Cases.failing).
Proof.
  destruct (save_delete_fails 0 Cases.failing "abc" Scenario.ECONNRESET [])
    as (w' & H1 & H2 & _ & _ & H5 & _).
  - vm_compute. reflexivity.
  - discriminate.
  - reflexivity.
  - exists w'. auto.
Defined.

Lemma save_insert_fails_witness :
  exists w',
    (forall fn, save 0 fn Cases.failing_second = fn (Some Scenario.ECONNRESET) None w')
    /\ Store.select (QId (Some "abc")) (rows w') = None
    /\ heap w' = heap Cases.failing_second.
Proof.
  destruct (save_insert_fails 0 Cases.failing_second "abc" Scenario.ECONNRESET [])
    as (w' & H1 & _ & H3 & H4 & _).
  - vm_compute. reflexivity.
  - discriminate.
  - reflexivity.
  - exists w'. auto.
Defined.

Lemma save_upserts_witness :
  exists res w',
    (forall fn, save 0 fn Scenario.active = fn None (Some res) w')
    /\ List.filter (matches (QId (Some "abc"))) (rows w') = [res].
Proof.
  destruct (save_upserts 0 Scenario.active (deref Scenario.active 0) "abc")
    as (res & w' & H1 & H2 & _).
  - vm_compute. reflexivity.
  - vm_compute. reflexivity.
  - discriminate.
  - unfold ok_for. vm_compute. constructor.
  - exists res, w'. auto.
Defined.

Lemma save_then_fetch_witness :
  exists res w1 w2,
    (forall fn, save 0 fn Scenario.active = fn None (Some res) w1)
    /\ (forall fn, fetch 0 fn w1 = fn None (Some res) w2)
    /\ data (deref w2 0) = res.
Proof.
  destruct (save_then_fetch 0 Scenario.active (deref Scenario.active 0) "abc")
    as (res & w1 & w2 & H1 & _ & H3 & H4 & _).
  - vm_compute. reflexivity.
  - vm_compute. reflexivity.
  - discriminate.
  - unfold ok_for. vm_compute. constructor.
  - exists res, w1, w2. auto.
Defined.

Lemma anonymous_set_uid_save_witness :
  exists newid res w',
    newid = toHex (map Scenario.rnd (seq 0 64))
    /\ (forall fn, save 0 fn (set Cases.uid_u1 0 Scenario.guest) = fn None (Some res) w')
    /\ id res = Some newid
    /\ uid res = Some "u1"
    /\ sessionIndex w' !! newid = Some (Js.Ref 0)
    /\ getSession "u1" w' = Some (Js.Ref 0).
Proof.
  destruct (anonymous_set_uid_save Cases.uid_u1 "u1" 0 Scenario.guest
              (deref Scenario.guest 0))
    as (newid & res & w' & H0 & _ & H1 & _ & _ & H3 & H4 & _ & _ & _ & H8 & H9).
  - vm_compute. reflexivity.
  - vm_compute. reflexivity.
  - reflexivity.
  - discriminate.
  - reflexivity.
  - unfold ok_for. vm_compute. constructor.
  - exists newid, res, w'. auto 10.
Defined.

Lemma reconnect_redirects_wrapper_witness :
  socketIndex Scenario.bound !! "abc" = Some 7
  /\ (forall c, issue 0 (connection 9 (Some "abc") Scenario.bound) c
                = log (delivered 9 c) (connection 9 (Some "abc") Scenario.bound)).
Proof.
  split; [vm_compute; reflexivity|].
  destruct (reconnect_redirects_wrapper 0 Scenario.bound (deref Scenario.bound 0) "abc" 9)
    as (H1 & _).
  - vm_compute. reflexivity.
  - vm_compute. reflexivity.
  - discriminate.
  - exact H1.
Defined.

Lemma sweep_keeps_fresh_records_witness :
  rows (cleanupInactiveSessions Scenario.t0 Cases.mixed)
  = [ Scenario.abc (Some (Scenario.t0 - 5000)%Z) ]
  /\ (forall u, getSession u (cleanupInactiveSessions Scenario.t0 Cases.mixed)
                = getSession u Cases.mixed)
  /\ rows (cleanupInactiveSessions Scenario.t0
             (cleanupInactiveSessions Scenario.t0 Cases.mixed))
     = rows (cleanupInactiveSessions Scenario.t0 Cases.mixed).
Proof.
  destruct (sweep_keeps_fresh_records Scenario.t0 Cases.mixed) as (_ & _ & _ & H4 & H5).
  - unfold ok_for. vm_compute. constructor.
  - split; [vm_compute; reflexivity|]. split; [exact H4|exact H5].
Defined.

Lemma emitToUsers_delivers_witness :
  emitToUsers (ManyUsers [Cases.nobody; Cases.u1; Cases.u1]) "ping" "1" Scenario.bound
  = logs [SocketEmit 7 ["ping"; "1"]; SocketEmit 7 ["ping"; "1"]] Scenario.bound.
Proof.
  apply (emitToUsers_delivers [Cases.nobody; Cases.u1; Cases.u1] "ping" "1" Scenario.bound).
  intros u Hin (r & Hr & Hs).
  repeat (apply elem_of_cons in Hin as [->|Hin]);
    [ vm_compute in Hr; discriminate
    | vm_compute in Hr; inversion Hr; subst r; vm_compute in Hs; discriminate
    | vm_compute in Hr; inversion Hr; subst r; vm_compute in Hs; discriminate
    | apply elem_of_nil in Hin; exact Hin ].
Defined.

(** A connection carrying 'abc' after the calls of [Scenario.calls] on
    Session 0 of [Scenario.active], and a connection carrying 'error',
    for which no Session waits. *)
Lemma connection_drains_once_witness :
  trace (connection 7 (Some "abc") (foldl (issue 0) Scenario.active Scenario.calls))
  = trace Scenario.active
    ++ [ SocketOn 7 ["message"; "onMessage"]; SocketOn 7 ["close"; "onClose"];
         SocketEmit 7 ["hello"; "1"]; SocketEmit 7 ["bye"] ]
  /\ waiting_for "abc"
       (socketQueue (connection 7 (Some "abc")
                       (foldl (issue 0) Scenario.active Scenario.calls))) = []
  /\ trace (connection 7 (Some "error") Scenario.active)
     = trace Scenario.active ++ [unhandled_error]
  /\ socketIndex (connection 7 (Some "error") Scenario.active) !! "error" = Some 7.
Proof.
  destruct (connection_drains_once 7 "abc" (foldl (issue 0) Scenario.active Scenario.calls))
    as (_ & H2 & _ & _ & _ & H3 & _).
  - split.
    + vm_compute. apply NoDup_singleton.
    + vm_compute. repeat constructor.
  - split; vm_compute; reflexivity.
  - discriminate.
  - destruct (connection_drains_once 7 "error" Scenario.active)
      as (_ & E2 & _ & _ & E5 & _).
    + split.
      * vm_compute. apply NoDup_singleton.
      * vm_compute. repeat constructor.
    + split; vm_compute; reflexivity.
    + discriminate.
    + split; [rewrite H2; vm_compute; reflexivity|]. split; [exact H3|].
      split; [rewrite E2; vm_compute; reflexivity|exact E5].
Defined.

Lemma emitToUsers_single_witness :
  emitToUsers (OneUser Cases.u1) "ping" "1" Scenario.bound
  = log (SocketEmit 7 ["ping"; "1"]) Scenario.bound
  /\ trace (emitToUsers (OneUser Cases.u1) "ping" "1" Scenario.active)
     = trace Scenario.active.
Proof.
  destruct (emitToUsers_single Cases.u1 "u1" "ping" "1" Scenario.bound)
    as (_ & H2 & _); [reflexivity|discriminate|].
  destruct (emitToUsers_single Cases.u1 "u1" "ping" "1" Scenario.active)
    as (_ & _ & H3 & _); [reflexivity|discriminate|].
  split.
  - apply (H2 0 7); vm_compute; reflexivity.
  - apply (H3 0); vm_compute; reflexivity.
Defined.

Lemma fetch_missing_record_witness :
  exists w',
    (forall fn, fetch 0 fn Scenario.guest = w')
    /\ heap w' = heap Scenario.guest.
Proof.
  destruct (fetch_missing_record 0 Scenario.guest) as (w' & H1 & _ & H3 & _).
  - left. vm_compute. reflexivity.
  - vm_compute. reflexivity.
  - exists w'. auto.
Defined.

Lemma createSession_builds_from_record_witness :
  exists w',
    (forall fn, createSession (Some "abc") Scenario.t0 fn Cases.started = fn None (Some 0) w')
    /\ data (deref w' 0) = Scenario.abc (Some (Scenario.t0 - 5000)%Z)
    /\ sessionIndex w' !! "abc" = Some (Js.Ref 0)
    /\ getSession "u1" w' = Some (Js.Ref 0).
Proof.
  destruct (createSession_builds_from_record "abc" Scenario.t0 (Scenario.t0 - 5000)
              Cases.started (Scenario.abc (Some (Scenario.t0 - 5000)%Z)))
    as (w' & H1 & H2 & H3 & H4 & _).
  - discriminate.
  - split; vm_compute; reflexivity.
  - left. vm_compute. reflexivity.
  - vm_compute. reflexivity.
  - vm_compute. reflexivity.
  - reflexivity.
  - reflexivity.
  - vm_compute. discriminate.
  - vm_compute. discriminate.
  - vm_compute. discriminate.
  - exists w'. split; [exact H1|]. split; [exact H2|]. split; [exact H3|].
    apply (H4 "u1"); [reflexivity|discriminate].
Defined.
